(** * AL-SHIFA dental front end: API gateway and patient chat session

    A shallow embedding of the client-side core of the repository:
    - [lib/api] (the axios client, its request and response interceptors
      and the [AgentAPI] facade), and
    - [components/chat/PatientChatWidget.tsx] (the message log, the
      [handleSend] handler and the construction of [agentMsg]).

    JavaScript strings are sequences of UTF-16 code units, values returned
    by the backend are JSON values, [localStorage] and the header table are
    finite maps, and the body of [handleSend] is written in a small
    state-and-exception monad so that it can be read side by side with the
    TypeScript source. *)

From Stdlib Require Import ZArith NArith List Ascii String.
From Stdlib Require Import Floats.SpecFloat.
From stdpp Require Import base option list gmap strings pretty relations.

Local Open Scope Z_scope.

(** ** JavaScript values *)

Module Js.

(** A string is the list of its UTF-16 code units. *)
Abbreviation jsstring := (list N).

(** The code units of an ASCII literal. *)
Definition str (s : string) : jsstring :=
  N_of_ascii <$> list_ascii_of_string s.

(** ECMAScript [WhiteSpace] and [LineTerminator] code points, the set
    stripped by [String.prototype.trim].  All of them lie in the basic
    plane, so the test on code units is exact. *)
Definition is_white_space (c : N) : bool :=
  bool_decide (c ∈ [0x9; 0xA; 0xB; 0xC; 0xD; 0x20; 0xA0; 0x1680;
                    0x2028; 0x2029; 0x202F; 0x205F; 0x3000; 0xFEFF]%N)
  || (0x2000 <=? c)%N && (c <=? 0x200A)%N.

Fixpoint trimStart (s : jsstring) : jsstring :=
  match s with
  | c :: s' => if is_white_space c then trimStart s' else s
  | [] => []
  end.

Definition trimEnd (s : jsstring) : jsstring :=
  reverse (trimStart (reverse s)).

(** [s.trim()] *)
Definition trim (s : jsstring) : jsstring := trimEnd (trimStart s).

(** JSON values as delivered in [response.data], plus [undefined].
    Numbers are IEEE 754 values; an object is the list of its own
    properties in insertion order, each key occurring once. *)
#[local] Unset Elimination Schemes.
Inductive JsValue : Type :=
| JUndefined
| JNull
| JBool (b : bool)
| JNumber (x : spec_float)
| JString (s : jsstring)
| JArray (xs : list JsValue)
| JObject (fields : list (jsstring * JsValue)).
#[local] Set Elimination Schemes.

(** Abstract operation [ToBoolean], used by [!], [||] and [if]. *)
Definition to_boolean (v : JsValue) : bool :=
  match v with
  | JUndefined | JNull => false
  | JBool b => b
  | JNumber (S754_zero _) | JNumber S754_nan => false
  | JNumber _ => true
  | JString s => negb (bool_decide (s = []))
  | JArray _ | JObject _ => true
  end.

(** [a || b] *)
Definition or_else (a b : JsValue) : JsValue :=
  if to_boolean a then a else b.

(** [v === "lit"] for a string literal on the right. *)
Definition strict_eq_string (v : JsValue) (lit : jsstring) : bool :=
  match v with
  | JString s => bool_decide (s = lit)
  | _ => false
  end.

(** Own-property lookup in an object. *)
Fixpoint lookup_field (k : jsstring) (fields : list (jsstring * JsValue))
  : option JsValue :=
  match fields with
  | [] => None
  | (k', v) :: rest => if bool_decide (k' = k) then Some v
                       else lookup_field k rest
  end.

(** The own property [k] of [v], if [v] is an object that has one; a
    property holding [null] is present, a missing one is not. *)
Definition own_property (v : JsValue) (k : jsstring) : option JsValue :=
  match v with
  | JObject fields => lookup_field k fields
  | _ => None
  end.

(** What a failed operation throws or a promise rejects with;
    [SecurityError] is the exception of a browser that denies access to
    storage. *)
Inductive Thrown : Type :=
| TypeError
| SecurityError
| AxiosError (status : option Z) (payload : JsValue).

(** The outcome of evaluating an expression: a thrown value or a result. *)
Abbreviation Completion A := (Thrown + A)%type.

(** Member access [v.k] for a property name [k] that no built-in
    prototype defines (the widget reads [response_text], [action_taken]
    and [slots] only): reading from [undefined] or [null] throws a
    [TypeError], an object yields its own property or [undefined], and
    arrays and primitives yield [undefined]. *)
Definition get_member (v : JsValue) (k : jsstring) : Completion JsValue :=
  match v with
  | JUndefined | JNull => inl TypeError
  | JObject fields => inr (default JUndefined (lookup_field k fields))
  | _ => inr JUndefined
  end.

(** [n.toString()] for an integral time value: plain decimal digits,
    with a leading minus sign for a negative one. *)
Definition number_toString (n : Z) : jsstring := str (pretty n).

End Js.

(** ** The axios client of [lib/api] *)

Module Api.
Import Js.

Definition API_URL : jsstring := str "http://localhost:8000".

(** The browser's [window]: [None] while rendering on the server, where
    [typeof window] is ["undefined"]; otherwise the content of a
    [localStorage] that can be read.  A browser that denies access to
    storage is the subject of [ApiStorage]. *)
Abbreviation Window := (option (gmap jsstring jsstring)).

(** [localStorage.getItem(k)]: [None] stands for [null]. *)
Definition getItem (localStorage : gmap jsstring jsstring) (k : jsstring)
  : option jsstring := localStorage !! k.

(** The credential held in process-wide state, if any. *)
Definition stored_credential (window : Window) : option jsstring :=
  localStorage ← window; getItem localStorage (str "token").

(** The request configuration that travels through the interceptors;
    [body] is axios's [config.data]. *)
Record Config : Type := {
  method : jsstring;
  baseURL : jsstring;
  url : jsstring;
  headers : gmap jsstring jsstring;
  body : JsValue
}.

Record Response : Type := {
  status : Z;
  data : JsValue
}.

(** How the promise of a dispatched request settles. *)
Inductive Settled : Type :=
| Resolved (res : Response)
| Rejected (error : Thrown).

(** [api.interceptors.request.use((config) => ...)], the fulfilled
    handler; the rejected handler only passes on the failure of an earlier
    interceptor, and there is none. *)
Definition request_interceptor (window : Window) (config : Config)
  : Completion Config :=
  match window with
  | Some localStorage =>
      match getItem localStorage (str "token") with
      | Some token =>
          if to_boolean (JString token)
          then inr {| method := method config;
                      baseURL := baseURL config;
                      url := url config;
                      headers := <[str "Authorization" := str "Bearer " ++ token]>
                                   (headers config);
                      body := body config |}
          else inr config
      | None => inr config
      end
  | None => inr config
  end.

(** [api.interceptors.response.use((response) => response, (error) => ...)]:
    the branch for status 401 is empty, and the error is rejected again. *)
Definition response_interceptor (s : Settled) : Settled :=
  match s with
  | Resolved response => Resolved response
  | Rejected error =>
      match error with
      | AxiosError (Some 401) _ => Rejected error
      | _ => Rejected error
      end
  end.

(** The configuration [api.post(url, body)] starts from: the defaults
    given to [axios.create] on lines 8-13. *)
Definition post_config (u : jsstring) (b : JsValue) : Config :=
  {| method := str "post";
     baseURL := API_URL;
     url := u;
     headers := {[ str "Content-Type" := str "application/json" ]};
     body := b |}.

(** The request handed to the network by [api.post(url, body)]. *)
Definition post_request (window : Window) (u : jsstring) (b : JsValue)
  : Completion Config :=
  request_interceptor window (post_config u b).

(** [await api.post(url, body)] against a backend that settles each
    dispatched request. *)
Definition post (window : Window) (backend : Config → Settled)
    (u : jsstring) (b : JsValue) : Completion Response :=
  match post_request window u b with
  | inl e => inl e
  | inr config =>
      match response_interceptor (backend config) with
      | Resolved response => inr response
      | Rejected error => inl error
      end
  end.

End Api.

(** ** Reading [localStorage] in the browser *)

Module ApiStorage.
Import Js Api.

(** What the expression [localStorage] of line 18 meets: no [window] at
    all (rendering on the server), a storage that can be read, or a
    browser that denies access to storage, where evaluating
    [localStorage] throws a [SecurityError]. *)
Inductive StorageAccess : Type :=
| NoWindow
| Readable (localStorage : gmap jsstring jsstring)
| Denied.

Definition storage_readable (access : StorageAccess) : bool :=
  match access with
  | Denied => false
  | NoWindow | Readable _ => true
  end.

(** The credential held in a storage that can be read. *)
Definition credential_in (access : StorageAccess) : option jsstring :=
  match access with
  | Readable localStorage => getItem localStorage (str "token")
  | NoWindow | Denied => None
  end.

(** Lines 16-23 with the read of [localStorage] as the browser performs
    it: line 17 guards against a missing [window], nothing guards the
    read of line 18. *)
Definition request_interceptor_in (access : StorageAccess) (config : Config)
  : Completion Config :=
  match access with
  | NoWindow => request_interceptor None config
  | Readable localStorage => request_interceptor (Some localStorage) config
  | Denied => inl SecurityError
  end.

(** The request handed to the network by [api.post(url, body)], if the
    interceptor lets it through. *)
Definition post_request_in (access : StorageAccess) (u : jsstring)
    (b : JsValue) : Completion Config :=
  request_interceptor_in access (post_config u b).

End ApiStorage.

(** ** The agent facade *)

Module AgentAPI.
Import Js Api.

(** A default parameter value applies when the argument is [undefined]. *)
Definition default_param (arg dflt : JsValue) : JsValue :=
  match arg with JUndefined => dflt | _ => arg end.

(** The object literal posted by [sendMessage(query, context = {}, role = "patient")]. *)
Definition sendMessage_body (query : jsstring) (context role : JsValue)
  : JsValue :=
  let context := default_param context (JObject []) in
  let role := default_param role (JString (str "patient")) in
  JObject [ (str "user_query", JString query);
            (str "role", role);
            (str "context", context);
            (str "agent_type", JNull) ].

Definition sendMessage (window : Window) (backend : Config → Settled)
    (query : jsstring) (context role : JsValue) : Completion JsValue :=
  match post window backend (str "/agent/execute")
          (sendMessage_body query context role) with
  | inl e => inl e
  | inr response => inr (data response)
  end.

(** The object literal posted by [bookSlot(slotId, patientId)]. *)
Definition bookSlot_body (slotId patientId : jsstring) : JsValue :=
  JObject [ (str "agent_type", JString (str "appointment"));
            (str "intent", JString (str "book"));
            (str "slot_id", JString slotId);
            (str "patient_id", JString patientId);
            (str "user_query", JString (str "Confirm booking")) ].

Definition bookSlot (window : Window) (backend : Config → Settled)
    (slotId patientId : jsstring) : Completion JsValue :=
  match post window backend (str "/agent/execute")
          (bookSlot_body slotId patientId) with
  | inl e => inl e
  | inr response => inr (data response)
  end.

(** The object literal posted by [askDoctorAssistant(query)]. *)
Definition askDoctorAssistant_body (query : jsstring) : JsValue :=
  JObject [ (str "agent_type", JString (str "router"));
            (str "role", JString (str "doctor"));
            (str "user_query", JString query) ].

Definition askDoctorAssistant (window : Window) (backend : Config → Settled)
    (query : jsstring) : Completion JsValue :=
  match post window backend (str "/agent/execute")
          (askDoctorAssistant_body query) with
  | inl e => inl e
  | inr response => inr (data response)
  end.

End AgentAPI.

(** ** The patient chat widget *)

Module Chat.
Import Js Api.

Inductive Role : Type := user | agent.

Inductive ActionType : Type := booking_suggestion | link.

Record Action : Type := {
  type : ActionType;
  label : jsstring;
  data : JsValue
}.

(** [interface Message].  At run time [content] holds whatever value the
    expression on line 68 produced, hence a [JsValue]. *)
Record Message : Type := {
  id : jsstring;
  role : Role;
  content : JsValue;
  action : option Action
}.

(** The [useState] cells the handler touches ([isOpen] and [isHovered]
    only drive the rendering and are left out). *)
Record State : Type := {
  messages : list Message;
  input : jsstring;
  loading : bool
}.

(** What the handler runs against: the component state, the console, and
    the clock, given as the sequence of values [Date.now()] returns. *)
Record World : Type := {
  ui : State;
  console : list Thrown;
  clock : nat → Z;
  ticks : nat
}.

(** *** Effects of the handler: state and exceptions *)

Definition M (A : Type) : Type := World → Completion A * World.

#[export] Instance M_ret : MRet M := λ A a w, (inr a, w).

#[export] Instance M_bind : MBind M := λ A B f m w,
  match m w with
  | (inr a, w') => f a w'
  | (inl e, w') => (inl e, w')
  end.

Definition throw {A} (e : Thrown) : M A := λ w, (inl e, w).

Definition lift {A} (c : Completion A) : M A := λ w, (c, w).

(** [try { body } catch (error) { handler } finally { final }] *)
Definition try_catch_finally {A} (body : M A) (handler : Thrown → M A)
    (final : M unit) : M A := λ w,
  let '(r, w1) := body w in
  let '(r', w2) := match r with
                   | inl e => handler e w1
                   | inr a => (inr a, w1)
                   end in
  let '(rf, w3) := final w2 in
  match rf with
  | inl e => (inl e, w3)
  | inr _ => (r', w3)
  end.

Definition with_ui (f : State → State) : M unit := λ w,
  (inr (), {| ui := f (ui w); console := console w;
              clock := clock w; ticks := ticks w |}).

Definition getState : M State := λ w, (inr (ui w), w).

Definition setMessages (f : list Message → list Message) : M unit :=
  with_ui (λ s, {| messages := f (messages s); input := input s;
                   loading := loading s |}).

Definition setInput (v : jsstring) : M unit :=
  with_ui (λ s, {| messages := messages s; input := v;
                   loading := loading s |}).

Definition setLoading (b : bool) : M unit :=
  with_ui (λ s, {| messages := messages s; input := input s;
                   loading := b |}).

(** [Date.now()] *)
Definition Date_now : M Z := λ w,
  (inr (clock w (ticks w)),
   {| ui := ui w; console := console w;
      clock := clock w; ticks := S (ticks w) |}).

(** [console.error(error)] *)
Definition console_error (e : Thrown) : M unit := λ w,
  (inr (), {| ui := ui w; console := console w ++ [e];
              clock := clock w; ticks := ticks w |}).

(** [await p] for a promise that settles as [s]. *)
Definition await (s : Settled) : M Response :=
  match s with
  | Resolved res => mret res
  | Rejected error => throw error
  end.

(** *** The literals of the component *)

Definition welcome : Message :=
  {| id := str "welcome";
     role := agent;
     content := JString (str "Hello! I am Dr. AI. How can I help you today? I can schedule appointments, check records, or answer basic questions.");
     action := None |}.

Definition no_text_response : jsstring :=
  str "I processed that, but have no text response.".

(** U+26A0 U+FE0F followed by the ASCII sentence. *)
Definition connection_trouble : jsstring :=
  [0x26A0; 0xFE0F]%N ++
  str " I'm having trouble connecting to the clinic server. Please try again later.".

Definition initial_state : State :=
  {| messages := [welcome]; input := []; loading := false |}.

(** *** [handleSend] *)

(** Lines 47-62: from the call up to the [await]; the result is the pair
    of arguments given to [api.post], or [None] after the early return.
    [input] is the value the last render closed over, that is, the
    current content of the state cell. *)
Definition handleSend_begin : M (option (jsstring * JsValue)) :=
  st ← getState;
  if negb (to_boolean (JString (trim (input st)))) then mret None else
  let userText := input st in
  setInput [] ;;
  now ← Date_now;
  let userMsg := {| id := number_toString now; role := user;
                    content := JString userText; action := None |} in
  setMessages (λ prev, prev ++ [userMsg]) ;;
  setLoading true ;;
  mret (Some (str "/agent/execute",
              JObject [ (str "user_query", JString userText);
                        (str "session_id", JString (str "patient-session-1")) ])).

(** Lines 65-74: the object literal [agentMsg], its properties evaluated
    in source order. *)
Definition agentMsg (res : Response) : M Message :=
  now ← Date_now;
  response_text ← lift (get_member (Api.data res) (str "response_text"));
  action_taken ← lift (get_member (Api.data res) (str "action_taken"));
  act ← (if strict_eq_string action_taken (str "booking_intent")
         then slots ← lift (get_member (Api.data res) (str "slots"));
              mret (Some {| type := booking_suggestion;
                            label := str "View Available Slots";
                            data := slots |})
         else mret None);
  mret {| id := number_toString (now + 1);
          role := agent;
          content := or_else response_text (JString no_text_response);
          action := act |}.

(** Lines 57-87: what runs once the promise of [api.post] has settled. *)
Definition handleSend_resume (settled : Settled) : M unit :=
  try_catch_finally
    (res ← await settled;
     m ← agentMsg res;
     setMessages (λ prev, prev ++ [m]))
    (λ error,
       console_error error ;;
       now ← Date_now;
       setMessages (λ prev, prev ++
         [ {| id := number_toString now; role := agent;
              content := JString connection_trouble; action := None |} ]))
    (setLoading false).

(** The whole handler, from the call to the fulfilment of its promise,
    against a request that the network settles as [settled], when nothing
    else touches the component in between. *)
Definition handleSend (settled : Settled) : M unit :=
  call ← handleSend_begin;
  match call with
  | None => mret ()
  | Some _ => handleSend_resume (response_interceptor settled)
  end.

(** *** The mounted widget *)

(** The component together with the number of requests whose promise has
    not settled yet. *)
Record Widget : Type := {
  world : World;
  in_flight : nat
}.

Definition mount (clk : nat → Z) : Widget :=
  {| world := {| ui := initial_state; console := []; clock := clk; ticks := 0 |};
     in_flight := 0 |}.

(** What can happen to a mounted widget: the user edits the text box,
    the form is submitted, or a pending request settles. *)
Inductive Event : Type :=
| Typing (text : jsstring)
| Submit
| Settle (s : Settled).

(** One event.  The text box carries [disabled={loading}], so [onChange]
    fires only while [loading] is false; [onSubmit] calls [handleSend]
    unconditionally; a request can settle only if one is in flight, and
    its outcome passes through the response interceptor. *)
Definition step (e : Event) (wd : Widget) : option Widget :=
  match e with
  | Typing text =>
      if loading (ui (world wd)) then None
      else Some {| world := (setInput text (world wd)).2;
                   in_flight := in_flight wd |}
  | Submit =>
      match handleSend_begin (world wd) with
      | (inr (Some _), w') =>
          Some {| world := w'; in_flight := S (in_flight wd) |}
      | (_, w') => Some {| world := w'; in_flight := in_flight wd |}
      end
  | Settle s =>
      match in_flight wd with
      | O => None
      | S n =>
          Some {| world := (handleSend_resume (response_interceptor s)
                              (world wd)).2;
                  in_flight := n |}
      end
  end.

Fixpoint run (es : list Event) (wd : Widget) : option Widget :=
  match es with
  | [] => Some wd
  | e :: es' => match step e wd with
                | Some wd' => run es' wd'
                | None => None
                end
  end.

(** The states a mounted widget can be in. *)
Definition reachable (wd : Widget) : Prop :=
  ∃ clk es, run es (mount clk) = Some wd.

(** The guard on line 47, [!input.trim()], seen from the other side:
    the text passes it. *)
Definition sendable (text : jsstring) : bool :=
  to_boolean (JString (trim text)).

(** While a request is pending the text box is empty, and exactly one
    request is in flight. *)
Definition pending_inv (wd : Widget) : Prop :=
  (loading (ui (world wd)) = true → input (ui (world wd)) = []) ∧
  in_flight wd = if loading (ui (world wd)) then 1%nat else 0%nat.

End Chat.

(** ** Shapes of the message log *)

Module ChatLog.
Import Js Api Chat.

(** The roles of a log that holds the greeting, [n] completed turns and,
    while a request is pending, the user message of the open turn. *)
Definition turn_roles (n : nat) (pending : bool) : list Role :=
  agent :: concat (replicate n [user; agent]) ++
  (if pending then [user] else []).

(** A clock whose consecutive readings lie more than one millisecond
    apart. *)
Definition gapped (clk : nat → Z) : Prop := ∀ n, clk n + 1 < clk (S n).

(** The agent messages the handler can append: the one built from a
    reply, with its content truthy and its action absent or the booking
    suggestion, and the apology of the [catch] block. *)
Definition agent_message (m : Message) : Prop :=
  role m = agent ∧
  to_boolean (content m) = true ∧
  (action m = None ∨
   ∃ sl, action m = Some {| type := booking_suggestion;
                            label := str "View Available Slots";
                            data := sl |}).

(** The user messages the handler can append. *)
Definition user_message (m : Message) : Prop :=
  role m = user ∧ action m = None ∧
  ∃ text, content m = JString text ∧ sendable text = true.

End ChatLog.

(** ** The form of the chat widget *)

Module ChatForm.
Import Js Chat.

(** [disabled] of the text box, line 187. *)
Definition input_disabled (s : State) : bool := loading s.

(** [disabled] of the submit button, line 192. *)
Definition submit_disabled (s : State) : bool :=
  negb (to_boolean (JString (trim (input s)))) || loading s.

End ChatForm.

(** ** State and exceptions for the page components *)

Module Eff.
Import Js.

(** A handler running against a world [W]: it returns or throws, and
    leaves a world behind. *)
Definition ST (W A : Type) : Type := W → Completion A * W.

#[export] Instance ST_ret {W} : MRet (ST W) := λ A a w, (inr a, w).

#[export] Instance ST_bind {W} : MBind (ST W) := λ A B f m w,
  match m w with
  | (inr a, w') => f a w'
  | (inl e, w') => (inl e, w')
  end.

(** Sequencing of expressions that may throw. *)
#[export] Instance Completion_ret : MRet (sum Thrown) := λ A a, inr a.

#[export] Instance Completion_bind : MBind (sum Thrown) := λ A B f c,
  match c with
  | inr a => f a
  | inl e => inl e
  end.

Definition lift {W A} (c : Completion A) : ST W A := λ w, (c, w).

Definition modify {W} (f : W → W) : ST W unit := λ w, (inr (), f w).

(** [try { body } catch (error) { handler }] *)
Definition try_catch {W A} (body : ST W A) (handler : Thrown → ST W A)
  : ST W A := λ w,
  match body w with
  | (inl e, w1) => handler e w1
  | (inr a, w1) => (inr a, w1)
  end.

(** [try { body } catch (error) { handler } finally { final }] *)
Definition try_catch_finally {W A} (body : ST W A) (handler : Thrown → ST W A)
    (final : ST W unit) : ST W A := λ w,
  let '(r, w1) := try_catch body handler w in
  let '(rf, w2) := final w1 in
  match rf with
  | inl e => (inl e, w2)
  | inr _ => (r, w2)
  end.

End Eff.

(** ** [api.get] *)

Module ApiGet.
Import Js Api.

(** The configuration [api.get(url)] starts from: no body. *)
Definition get_config (u : jsstring) : Config :=
  {| method := str "get";
     baseURL := API_URL;
     url := u;
     headers := {[ str "Content-Type" := str "application/json" ]};
     body := JUndefined |}.

(** [await api.get(url)] against a backend that settles each request. *)
Definition get (window : Window) (backend : Config → Settled) (u : jsstring)
  : Completion Response :=
  match request_interceptor window (get_config u) with
  | inl e => inl e
  | inr config =>
      match response_interceptor (backend config) with
      | Resolved response => inr response
      | Rejected error => inl error
      end
  end.

End ApiGet.

(** ** The layouts of the admin and the doctor portal *)

Module Layout.
Import Js Api.

(** What the layouts act on: [localStorage] and the routes handed to
    [router.push], oldest first. *)
Record Browser : Type := {
  storage : gmap jsstring jsstring;
  pushed : list jsstring
}.

(** [router.push(route)] *)
Definition router_push (route : jsstring) (b : Browser) : Browser :=
  {| storage := storage b; pushed := pushed b ++ [route] |}.

(** The value of [localStorage.getItem(k)]: a string or [null]. *)
Definition item (b : Browser) (k : jsstring) : JsValue :=
  match getItem (storage b) k with
  | Some v => JString v
  | None => JNull
  end.

(** A sidebar entry: its text ([label] in the admin layout, [name] in the
    doctor layout) and its target. *)
Record NavItem : Type := {
  label : jsstring;
  href : jsstring
}.

(** [pathname === item.href] *)
Definition isActive (pathname : jsstring) (it : NavItem) : bool :=
  bool_decide (pathname = href it).

End Layout.

Module AdminLayout.
Import Js Api Layout.

Definition NAV_ITEMS : list NavItem :=
  [ {| label := str "Dashboard"; href := str "/admin/dashboard" |};
    {| label := str "Approvals"; href := str "/admin/approvals" |};
    {| label := str "Doctor Queue"; href := str "/admin/doctors" |};
    {| label := str "Hospital Queue"; href := str "/admin/organizations" |};
    {| label := str "Audit Logs"; href := str "/admin/audit" |} ].

(** The effect of lines 26-32, run in the browser after mounting. *)
Definition authCheck (b : Browser) : Browser :=
  let token := item b (str "token") in
  let role := item b (str "role") in
  if negb (to_boolean token) || negb (strict_eq_string role (str "admin"))
  then router_push (str "/auth/admin/login") b
  else b.

(** Lines 34-37: [localStorage.clear()], then the route change. *)
Definition handleLogout (b : Browser) : Browser :=
  router_push (str "/auth/role-selection")
    {| storage := ∅; pushed := pushed b |}.

End AdminLayout.

Module DoctorLayout.
Import Js Api Layout.

Definition navItems : list NavItem :=
  [ {| label := str "Dashboard"; href := str "/doctor/dashboard" |};
    {| label := str "AI Agents"; href := str "/doctor/agents" |};
    {| label := str "Schedule"; href := str "/doctor/schedule" |};
    {| label := str "Patients"; href := str "/doctor/patients" |};
    {| label := str "Inventory"; href := str "/doctor/inventory" |};
    {| label := str "Finance"; href := str "/doctor/finance" |} ].

(** Lines 17-19: the route change only. *)
Definition handleLogout (b : Browser) : Browser :=
  router_push (str "/auth/role-selection") b.

End DoctorLayout.

(** ** The doctor verification page *)

Module AdminDoctorsPage.
Import Js Api ApiGet Eff.

(** [doctors] holds whatever the backend sent as payload. *)
Record State : Type := {
  doctors : JsValue;
  loading : bool
}.

(** The page, its console and the alerts it raised; [render_error] is
    set when a state updater throws, which React reports while rendering
    and not to the code that queued the update. *)
Record World : Type := {
  ui : State;
  console : list (jsstring * Thrown);
  alerts : list jsstring;
  render_error : option Thrown
}.

Definition initial_world : World :=
  {| ui := {| doctors := JArray []; loading := true |};
     console := []; alerts := []; render_error := None |}.

Definition setLoading (b : bool) : ST World unit :=
  modify (λ w, {| ui := {| doctors := doctors (ui w); loading := b |};
                  console := console w; alerts := alerts w;
                  render_error := render_error w |}).

(** [setDoctors(v)] *)
Definition setDoctors (v : JsValue) : ST World unit :=
  modify (λ w, {| ui := {| doctors := v; loading := loading (ui w) |};
                  console := console w; alerts := alerts w;
                  render_error := render_error w |}).

(** [setDoctors(prev => f(prev))] for an updater that may throw. *)
Definition setDoctors_with (f : JsValue → Completion JsValue)
  : ST World unit :=
  modify (λ w, match f (doctors (ui w)) with
               | inr v => {| ui := {| doctors := v; loading := loading (ui w) |};
                             console := console w; alerts := alerts w;
                             render_error := render_error w |}
               | inl e => {| ui := ui w; console := console w;
                             alerts := alerts w; render_error := Some e |}
               end).

(** [console.error(msg, error)] *)
Definition console_error (msg : jsstring) (e : Thrown) : ST World unit :=
  modify (λ w, {| ui := ui w; console := console w ++ [(msg, e)];
                  alerts := alerts w; render_error := render_error w |}).

(** [alert(msg)] *)
Definition alert (msg : jsstring) : ST World unit :=
  modify (λ w, {| ui := ui w; console := console w;
                  alerts := alerts w ++ [msg];
                  render_error := render_error w |}).

(** Lines 12-22. *)
Definition fetchPendingDoctors (window : Window) (backend : Config → Settled)
  : ST World unit :=
  try_catch_finally
    (setLoading true ;;
     res ← lift (get window backend (str "/admin/doctors/pending"));
     setDoctors (Api.data res))
    (λ error, console_error (str "Failed to load doctors") error)
    (setLoading false).

Inductive Verdict : Type := approve | reject.

Definition verdict_name (a : Verdict) : jsstring :=
  match a with
  | approve => str "approve"
  | reject => str "reject"
  end.

(** [xs.filter((d) => d.id !== id)] on the elements of an array, left to
    right; reading [d.id] throws when [d] is [null]. *)
Fixpoint filter_elements (id : jsstring) (xs : list JsValue)
  : Completion (list JsValue) :=
  match xs with
  | [] => inr []
  | d :: rest =>
      match get_member d (str "id") with
      | inl e => inl e
      | inr v =>
          match filter_elements id rest with
          | inl e => inl e
          | inr rest' =>
              inr (if negb (strict_eq_string v id) then d :: rest' else rest')
          end
      end
  end.

(** The updater of line 32, [prev.filter((d) => d.id !== id)]: only an
    array has a [filter] method. *)
Definition remove_doctor (id : jsstring) (prev : JsValue)
  : Completion JsValue :=
  match prev with
  | JArray xs =>
      match filter_elements id xs with
      | inl e => inl e
      | inr xs' => inr (JArray xs')
      end
  | _ => inl TypeError
  end.

(** The address built by the template literal of line 30. *)
Definition verify_url (id : jsstring) (action : Verdict) : jsstring :=
  str "/admin/verify/doctor/" ++ id ++ str "?action=" ++ verdict_name action.

(** Lines 28-36. *)
Definition handleAction (window : Window) (backend : Config → Settled)
    (id : jsstring) (action : Verdict) : ST World unit :=
  try_catch
    (lift (post window backend (verify_url id action) JUndefined) ;;
     setDoctors_with (remove_doctor id))
    (λ error, alert (str "Action failed. Please try again.")).

(** [d.id], or [undefined] where reading it would throw. *)
Definition id_of (d : JsValue) : JsValue :=
  match get_member d (str "id") with
  | inr v => v
  | inl _ => JUndefined
  end.

End AdminDoctorsPage.

(** ** The admin dashboard *)

Module AdminDashboard.
Import Js Api ApiGet Eff.

Record State : Type := {
  stats : JsValue;
  loading : bool
}.

Record World : Type := {
  ui : State;
  console : list Thrown
}.

Definition initial_world : World :=
  {| ui := {| stats := JNull; loading := true |}; console := [] |}.

(** The effect of lines 135-147: [fetchStats()]. *)
Definition fetchStats (window : Window) (backend : Config → Settled)
  : ST World unit :=
  try_catch_finally
    (res ← lift (get window backend (str "/admin/dashboard/stats"));
     modify (λ w, {| ui := {| stats := Api.data res; loading := loading (ui w) |};
                     console := console w |}))
    (λ e, modify (λ w, {| ui := ui w; console := console w ++ [e] |}))
    (modify (λ w, {| ui := {| stats := stats (ui w); loading := false |};
                     console := console w |})).

(** [v?.a.b]: [undefined] when [v] is [null] or [undefined], and the plain
    chain [v.a.b] otherwise. *)
Definition optional_chain (v : JsValue) (a b : jsstring)
  : Completion JsValue :=
  match v with
  | JUndefined | JNull => inr JUndefined
  | _ => x ← get_member v a; get_member x b
  end.

(** [fields] has an own property named [k]; in a JSON payload its value
    is never a function. *)
Definition has_own (fields : list (jsstring * JsValue)) (k : jsstring)
  : bool :=
  match lookup_field k fields with
  | Some _ => true
  | None => false
  end.

(** Whether [v.toLocaleString()] throws, for [v] a value of a JSON
    payload other than [null] and [undefined].  Numbers, strings and
    booleans use a built-in method.  An object with an own
    [toLocaleString] is called on a value that is not a function;
    without one, [Object.prototype.toLocaleString] calls [v.toString()],
    which fails likewise on an own [toString].  An array calls
    [toLocaleString] on each of its elements except [null].  Limits of
    the engine (nesting depth, string length) are left out. *)
Fixpoint toLocaleString_fails (v : JsValue) : bool :=
  match v with
  | JObject fields =>
      has_own fields (str "toLocaleString") || has_own fields (str "toString")
  | JArray xs =>
      existsb (λ x, match x with
                    | JUndefined | JNull => false
                    | _ => toLocaleString_fails x
                    end) xs
  | _ => false
  end.

(** Whether the conversion of [v] to a primitive throws, as [> 0] and
    [+] perform it.  An object converts through the inherited
    [valueOf], which yields the object itself, and then [toString]: an
    own [toString], not being a function, leaves no method that yields a
    primitive.  An array converts through [join], which converts each
    element except [null] to a string. *)
Fixpoint to_primitive_fails (v : JsValue) : bool :=
  match v with
  | JObject fields => has_own fields (str "toString")
  | JArray xs => existsb to_primitive_fails xs
  | _ => false
  end.

(** The conversion of an operand, for its effect only. *)
Definition to_primitive (v : JsValue) : Completion unit :=
  if to_primitive_fails v then inl TypeError else inr ().

(** [v?.a.b.toLocaleString()]: short-circuits as a whole when [v] is
    [null] or [undefined]; otherwise the method is called on [v.a.b],
    which throws when that is [null] or [undefined] or the call fails.
    The text returned depends on the locale and is not modelled. *)
Definition optional_chain_toLocaleString (v : JsValue) (a b : jsstring)
  : Completion unit :=
  match v with
  | JUndefined | JNull => inr ()
  | _ => x ← get_member v a;
         y ← get_member x b;
         match y with
         | JUndefined | JNull => inl TypeError
         | _ => if toLocaleString_fails y then inl TypeError else inr ()
         end
  end.

(** What the body of the component produces. *)
Inductive View : Type :=
| Spinner
| Cards (doctors hospitals patients appointments : JsValue).

(** The body of [AdminDashboard] from line 149 on: the expressions in
    braces, evaluated in source order.  The comparison of line 210
    converts its left operand to a primitive; the sum of line 217 reads
    both operands and then converts the left and the right one. *)
Definition render (s : State) : Completion View :=
  if loading s then inr Spinner else
  _ ← optional_chain_toLocaleString (stats s) (str "financials") (str "revenue");
  doctors ← optional_chain (stats s) (str "total_users") (str "doctors");
  hospitals ← optional_chain (stats s) (str "total_users") (str "hospitals");
  patients ← optional_chain (stats s) (str "total_users") (str "patients");
  appointments ← optional_chain (stats s) (str "financials") (str "appointments");
  pending ← optional_chain (stats s) (str "action_items") (str "pending_doctors");
  _ ← to_primitive pending;
  left ← optional_chain (stats s) (str "action_items") (str "pending_doctors");
  right ← optional_chain (stats s) (str "action_items") (str "pending_hospitals");
  _ ← to_primitive left;
  _ ← to_primitive right;
  inr (Cards doctors hospitals patients appointments).

(** [v] is [null] or [undefined]. *)
Definition nullish (v : JsValue) : bool :=
  match v with
  | JUndefined | JNull => true
  | _ => false
  end.

(** [v.k], or [undefined] where reading it would throw. *)
Definition member (v : JsValue) (k : jsstring) : JsValue :=
  match get_member v k with
  | inr x => x
  | inl _ => JUndefined
  end.

End AdminDashboard.

(** ** The hospital picker *)

Module HospitalSelect.
Import Js.

Definition HOSPITALS : list jsstring :=
  [ str "Al-Shifa Dental Center";
    str "City Smile Hospital";
    str "Apex Dental Care";
    str "Royal Molar Clinic";
    str "Dubai Health Authority - Main";
    str "Sharjah Medical Center" ].

(** [h.includes(s)]: [s] occurs in [h] as a run of code units. *)
Fixpoint includes (h s : jsstring) : bool :=
  bool_decide (s `prefix_of` h) ||
  match h with
  | [] => false
  | _ :: h' => includes h' s
  end.

(** [String.prototype.toLowerCase] on code units below 128, where it maps
    A-Z to a-z and nothing else. *)
Definition lower_ascii (c : N) : N :=
  if (0x41 <=? c)%N && (c <=? 0x5A)%N then (c + 0x20)%N else c.

Definition is_ascii (s : jsstring) : Prop := Forall (λ c, (c < 128)%N) s.

Record State : Type := {
  isOpen : bool;
  search : jsstring
}.

Definition initial_state : State := {| isOpen := false; search := [] |}.

Section Filter.
(** [String.prototype.toLowerCase] as a whole follows the Unicode case
    tables, which are not reproduced here. *)
Variable toLowerCase : jsstring → jsstring.

(** Lines 144-146: the list shown for a search text. *)
Definition filtered (search : jsstring) : list jsstring :=
  filter (λ h, includes (toLowerCase h) (toLowerCase search) = true) HOSPITALS.

End Filter.

(** The click on a row, line 195: the parent is told, the list closes and
    the search text is cleared. *)
Definition select (hospital : jsstring) (s : State) : jsstring * State :=
  (hospital, {| isOpen := false; search := [] |}).

(** The click on the header, line 162. *)
Definition toggle (s : State) : State :=
  {| isOpen := negb (isOpen s); search := search s |}.

(** [onChange] of the search box, line 184. *)
Definition setSearch (text : jsstring) (s : State) : State :=
  {| isOpen := isOpen s; search := text |}.

End HospitalSelect.

(** * Properties *)

Import Js Api Chat.

(** ** The model on concrete inputs *)

Example trim_pads : trim (str "  book me a slot  ") = str "book me a slot".
Proof. reflexivity. Qed.

Example trim_no_break_space : trim [0xA0; 0x68; 0x69; 0x3000]%N = str "hi".
Proof. reflexivity. Qed.

Example blank_not_sendable : sendable (str "   ") = false.
Proof. reflexivity. Qed.

Example number_toString_time : number_toString (1700000000000 + 1) = str "1700000000001".
Proof. reflexivity. Qed.

Example number_toString_negative : number_toString (-42) = str "-42".
Proof. reflexivity. Qed.

Example bookSlot_S1_P1 :
  AgentAPI.bookSlot_body (str "S1") (str "P1") =
  JObject [ (str "agent_type", JString (str "appointment"));
            (str "intent", JString (str "book"));
            (str "slot_id", JString (str "S1"));
            (str "patient_id", JString (str "P1"));
            (str "user_query", JString (str "Confirm booking")) ].
Proof. reflexivity. Qed.

Example interceptor_attaches_bearer :
  match request_interceptor (Some {[ str "token" := str "abc" ]})
          (post_config (str "/auth/me") JUndefined) with
  | inr config => headers config !! str "Authorization"
  | inl _ => None
  end = Some (str "Bearer abc").
Proof. vm_compute. reflexivity. Qed.

Example null_payload_takes_catch_block :
  let w := {| ui := {| messages := []; input := []; loading := true |};
              console := []; clock := λ _, 5; ticks := 0 |} in
  (handleSend_resume (Resolved {| status := 200; Api.data := JNull |}) w).2
  = {| ui := {| messages := [ {| id := str "5"; role := agent;
                                content := JString connection_trouble;
                                action := None |} ];
                input := []; loading := false |};
       console := [TypeError]; clock := λ _, 5; ticks := 2 |}.
Proof. reflexivity. Qed.

(** ** The guard of line 47 *)

Lemma trimStart_nil (s : jsstring) :
  trimStart s = [] ↔ forallb is_white_space s = true.
Proof.
  induction s as [|c s IH]; simpl; [tauto|].
  destruct (is_white_space c); simpl; [exact IH|].
  split; discriminate.
Qed.

Lemma trimStart_head (s r : jsstring) (c : N) :
  trimStart s = c :: r → is_white_space c = false.
Proof.
  induction s as [|d s IH]; simpl; [discriminate|].
  destruct (is_white_space d) eqn:Hd; [exact IH|].
  intros [= -> _]. exact Hd.
Qed.

Lemma forallb_reverse (f : N → bool) (s : jsstring) :
  forallb f (reverse s) = forallb f s.
Proof.
  induction s as [|c s IH]; [reflexivity|].
  rewrite reverse_cons, forallb_app, IH. simpl.
  rewrite andb_true_r. apply andb_comm.
Qed.

(** [!input.trim()] holds exactly for the texts made of white space
    only, the empty one included. *)
Lemma sendable_false_iff (s : jsstring) :
  sendable s = false ↔ forallb is_white_space s = true.
Proof.
  unfold sendable, to_boolean, trim, trimEnd.
  rewrite negb_false_iff, bool_decide_eq_true.
  rewrite <- trimStart_nil. split.
  - intros Hnil. apply (f_equal reverse) in Hnil.
    rewrite reverse_involutive in Hnil. change (reverse []) with (@nil N) in Hnil.
    apply trimStart_nil in Hnil. rewrite forallb_reverse in Hnil.
    destruct (trimStart s) as [|c r] eqn:Hs; [reflexivity|].
    apply trimStart_head in Hs. simpl in Hnil. rewrite Hs in Hnil.
    discriminate.
  - intros ->. reflexivity.
Qed.

(** ** Helper lemmas on the handler *)

(** The early return of line 47. *)
Lemma handleSend_begin_blank (w : World) :
  sendable (input (ui w)) = false → handleSend_begin w = (inr None, w).
Proof.
  intros Hblank. unfold handleSend_begin, mbind, M_bind, getState.
  fold (sendable (input (ui w))). rewrite Hblank. reflexivity.
Qed.

(** Lines 49-62: the user message is appended and the request goes out. *)
Lemma handleSend_begin_sends (w : World) :
  sendable (input (ui w)) = true →
  handleSend_begin w =
    (inr (Some (str "/agent/execute",
                JObject [ (str "user_query", JString (input (ui w)));
                          (str "session_id",
                           JString (str "patient-session-1")) ])),
     {| ui := {| messages := messages (ui w) ++
                   [ {| id := number_toString (clock w (ticks w));
                        role := user;
                        content := JString (input (ui w));
                        action := None |} ];
                 input := [];
                 loading := true |};
        console := console w;
        clock := clock w;
        ticks := S (ticks w) |}).
Proof.
  intros Hne. unfold handleSend_begin, mbind, M_bind, getState.
  fold (sendable (input (ui w))). rewrite Hne. reflexivity.
Qed.

(** A rejected request: the [catch] block logs the error and appends the
    apology, the [finally] block clears [loading], and the handler's own
    promise is fulfilled. *)
Lemma handleSend_resume_rejected (w : World) (error : Thrown) :
  handleSend_resume (Rejected error) w =
    (inr (),
     {| ui := {| messages := messages (ui w) ++
                   [ {| id := number_toString (clock w (ticks w));
                        role := agent;
                        content := JString connection_trouble;
                        action := None |} ];
                 input := input (ui w);
                 loading := false |};
        console := console w ++ [error];
        clock := clock w;
        ticks := S (ticks w) |}).
Proof. reflexivity. Qed.

(** Reading a property of the reply either throws for every name (the
    payload is [null] or [undefined]) or succeeds for every name. *)
Lemma get_member_cases (d : JsValue) :
  (∀ k, get_member d k = inl TypeError) ∨
  (∀ k, ∃ v, get_member d k = inr v).
Proof.
  destruct d; simpl; eauto.
Qed.

(** The message built from a reply whose three properties can be read. *)
Lemma agentMsg_spec (w : World) (res : Response) (rt tk sl : JsValue) :
  get_member (Api.data res) (str "response_text") = inr rt →
  get_member (Api.data res) (str "action_taken") = inr tk →
  get_member (Api.data res) (str "slots") = inr sl →
  agentMsg res w =
    (inr {| id := number_toString (clock w (ticks w) + 1);
            role := agent;
            content := or_else rt (JString no_text_response);
            action := if strict_eq_string tk (str "booking_intent")
                      then Some {| type := booking_suggestion;
                                   label := str "View Available Slots";
                                   data := sl |}
                      else None |},
     (Date_now w).2).
Proof.
  intros Hrt Htk Hsl.
  unfold agentMsg, mbind, M_bind, lift. cbn [Date_now fst snd].
  rewrite Hrt, Htk.
  destruct (strict_eq_string tk (str "booking_intent")); [rewrite Hsl|];
    reflexivity.
Qed.

(** A reply whose payload is [null] or [undefined]: building [agentMsg]
    throws after the clock was read, and the [catch] block takes over. *)
Lemma agentMsg_throws (w : World) (res : Response) :
  (∀ k, get_member (Api.data res) k = inl TypeError) →
  agentMsg res w = (inl TypeError, (Date_now w).2).
Proof.
  intros Hthrow. unfold agentMsg, mbind, M_bind, lift.
  cbn [Date_now fst snd]. rewrite Hthrow. reflexivity.
Qed.

(** After a resolved request the log has exactly one more message, an
    agent message, and [loading] is cleared; the handler is fulfilled. *)
Lemma handleSend_resume_resolved (w : World) (res : Response) :
  ∃ m w',
    handleSend_resume (Resolved res) w = (inr (), w') ∧
    messages (ui w') = messages (ui w) ++ [m] ∧
    role m = agent ∧
    input (ui w') = input (ui w) ∧
    loading (ui w') = false.
Proof.
  destruct (get_member_cases (Api.data res)) as [Hthrow | Hok].
  - eexists _, _.
    unfold handleSend_resume, try_catch_finally, mbind, M_bind, await, mret, M_ret.
    rewrite (agentMsg_throws _ _ Hthrow). cbn.
    repeat split; reflexivity.
  - destruct (Hok (str "response_text")) as [rt Hrt].
    destruct (Hok (str "action_taken")) as [tk Htk].
    destruct (Hok (str "slots")) as [sl Hsl].
    eexists _, _.
    unfold handleSend_resume, try_catch_finally, mbind, M_bind, await, mret, M_ret.
    rewrite (agentMsg_spec _ _ _ _ _ Hrt Htk Hsl). cbn.
    repeat split; reflexivity.
Qed.

Lemma response_interceptor_id (s : Settled) : response_interceptor s = s.
Proof.
  destruct s as [res | error]; [reflexivity|].
  unfold response_interceptor. repeat case_match; reflexivity.
Qed.

Lemma handleSend_resume_clears_loading (s : Settled) (w : World) :
  loading (ui (handleSend_resume s w).2) = false ∧
  input (ui (handleSend_resume s w).2) = input (ui w).
Proof.
  destruct s as [res | error].
  - destruct (handleSend_resume_resolved w res) as (m & w' & -> & _ & _ & Hi & Hl).
    split; assumption.
  - rewrite handleSend_resume_rejected. split; reflexivity.
Qed.

(** ** The pending flag serialises turns *)

Lemma pending_inv_mount (clk : nat → Z) : pending_inv (mount clk).
Proof. split; [discriminate | reflexivity]. Qed.

Lemma pending_inv_step (e : Event) (wd wd' : Widget) :
  pending_inv wd → step e wd = Some wd' → pending_inv wd'.
Proof.
  intros [Hempty Hcount] Hstep. destruct e as [text | | s]; simpl in Hstep.
  - (* typing: only while not loading *)
    destruct (loading (ui (world wd))) eqn:Hl; [discriminate|].
    injection Hstep as <-. split; simpl; [discriminate | exact Hcount].
  - (* submit *)
    destruct (sendable (input (ui (world wd)))) eqn:Hs.
    + rewrite (handleSend_begin_sends _ Hs) in Hstep. injection Hstep as <-.
      destruct (loading (ui (world wd))) eqn:Hl.
      * rewrite Hempty in Hs by reflexivity. discriminate.
      * split; simpl; [reflexivity | rewrite Hcount; reflexivity].
    + rewrite (handleSend_begin_blank _ Hs) in Hstep. injection Hstep as <-.
      split; assumption.
  - (* a pending request settles *)
    destruct (in_flight wd) as [|n] eqn:Hn; [discriminate|].
    injection Hstep as <-.
    destruct (handleSend_resume_clears_loading (response_interceptor s) (world wd))
      as [Hl _].
    split; simpl; rewrite Hl; [discriminate|].
    destruct (loading (ui (world wd))); congruence.
Qed.

Lemma pending_inv_run (es : list Event) (wd wd' : Widget) :
  pending_inv wd → run es wd = Some wd' → pending_inv wd'.
Proof.
  revert wd. induction es as [|e es IH]; intros wd Hinv Hrun; simpl in Hrun.
  - congruence.
  - destruct (step e wd) as [wd1|] eqn:Hstep; [|discriminate].
    eapply IH; [|exact Hrun]. eapply pending_inv_step; eassumption.
Qed.

Lemma reachable_pending_inv (wd : Widget) : reachable wd → pending_inv wd.
Proof.
  intros (clk & es & Hrun).
  eapply pending_inv_run; [apply pending_inv_mount | exact Hrun].
Qed.

(** ** Claims on the conversation session *)

(** C1: in every state a mounted widget can reach, a call of
    [handleSend] made while [loading] is true changes nothing and posts no
    request: the text box, disabled while loading, is empty there, and
    blank input returns early. *)
Theorem C1_send_while_pending_reachable (wd : Widget) :
  reachable wd →
  loading (ui (world wd)) = true →
  input (ui (world wd)) = [] ∧
  handleSend_begin (world wd) = (inr None, world wd) ∧
  step Submit wd = Some wd.
Proof.
  intros Hreach Hl.
  destruct (reachable_pending_inv wd Hreach) as [Hempty _].
  specialize (Hempty Hl).
  assert (Hnoop : handleSend_begin (world wd) = (inr None, world wd)).
  { apply handleSend_begin_blank. rewrite Hempty. reflexivity. }
  repeat split; [exact Hempty | exact Hnoop |].
  simpl. rewrite Hnoop. destruct wd; reflexivity.
Qed.

Lemma C1_send_while_pending_reachable_witness :
  ∃ wd,
    run [Typing (str "hi"); Submit] (mount (λ _, 1700000000000)) = Some wd ∧
    loading (ui (world wd)) = true ∧
    handleSend_begin (world wd) = (inr None, world wd).
Proof.
  eexists. split; [reflexivity|]. split; [reflexivity|].
  refine (proj1 (proj2 (C1_send_while_pending_reachable _ _ _))).
  - exists (λ _, 1700000000000), [Typing (str "hi"); Submit]. reflexivity.
  - reflexivity.
Defined.

(** The handler as a whole is its two halves in sequence. *)
Lemma handleSend_sends (settled : Settled) (w : World) :
  sendable (input (ui w)) = true →
  handleSend settled w =
    handleSend_resume (response_interceptor settled) (handleSend_begin w).2.
Proof.
  intros Hs. unfold handleSend, mbind, M_bind.
  rewrite (handleSend_begin_sends w Hs). reflexivity.
Qed.

Lemma handleSend_blank (settled : Settled) (w : World) :
  sendable (input (ui w)) = false → handleSend settled w = (inr (), w).
Proof.
  intros Hs. unfold handleSend, mbind, M_bind.
  rewrite (handleSend_begin_blank w Hs). reflexivity.
Qed.

(** C2: a turn whose input passes the guard and whose request resolves
    appends exactly two messages, the user message carrying the text that
    was sent and then an agent message, and leaves [loading] false. *)
Theorem C2_successful_turn (w : World) (res : Response) :
  sendable (input (ui w)) = true →
  ∃ u a w',
    handleSend (Resolved res) w = (inr (), w') ∧
    messages (ui w') = messages (ui w) ++ [u; a] ∧
    role u = user ∧ content u = JString (input (ui w)) ∧
    role a = agent ∧
    loading (ui w') = false.
Proof.
  intros Hs. rewrite (handleSend_sends _ w Hs).
  rewrite (handleSend_begin_sends w Hs). cbn [snd response_interceptor].
  match goal with |- context [handleSend_resume _ ?w1] => set (w1' := w1) end.
  destruct (handleSend_resume_resolved w1' res)
    as (a & w2 & Hres & Hlog & Hrole & _ & Hl).
  eexists _, a, w2. split; [exact Hres|].
  split; [rewrite Hlog; simpl; rewrite <- app_assoc; reflexivity|].
  repeat split; try reflexivity; assumption.
Qed.

Lemma C2_successful_turn_witness :
  let w := {| ui := {| messages := [welcome];
                       input := str "book me a slot tomorrow";
                       loading := false |};
              console := []; clock := λ n, 1700000000000 + Z.of_nat n;
              ticks := 0 |} in
  let res := {| status := 200;
                Api.data := JObject [ (str "response_text",
                                       JString (str "Here are available slots")) ] |} in
  sendable (input (ui w)) = true ∧
  ∃ u a w',
    handleSend (Resolved res) w = (inr (), w') ∧
    messages (ui w') = messages (ui w) ++ [u; a] ∧
    role u = user ∧ content u = JString (input (ui w)) ∧
    role a = agent ∧
    loading (ui w') = false.
Proof.
  intros w res. split; [reflexivity|].
  apply (C2_successful_turn w res). reflexivity.
Defined.

(** C3: a turn whose request is rejected appends exactly two messages,
    the user message and then an agent message with the fixed apology and
    no action; [loading] is false afterwards and the handler's promise is
    fulfilled, so nothing is thrown to the caller. *)
Theorem C3_failed_turn (w : World) (error : Thrown) :
  sendable (input (ui w)) = true →
  ∃ u a w',
    handleSend (Rejected error) w = (inr (), w') ∧
    messages (ui w') = messages (ui w) ++ [u; a] ∧
    role u = user ∧ content u = JString (input (ui w)) ∧
    role a = agent ∧ content a = JString connection_trouble ∧
    action a = None ∧
    loading (ui w') = false.
Proof.
  intros Hs. rewrite (handleSend_sends _ w Hs).
  rewrite (handleSend_begin_sends w Hs), response_interceptor_id.
  rewrite handleSend_resume_rejected.
  eexists _, _, _. split; [reflexivity|].
  split; [simpl; rewrite <- app_assoc; reflexivity|].
  repeat split; reflexivity.
Qed.

Lemma C3_failed_turn_witness :
  let w := {| ui := {| messages := [welcome]; input := str "hello";
                       loading := false |};
              console := []; clock := λ n, 1700000000000 + Z.of_nat n;
              ticks := 0 |} in
  sendable (input (ui w)) = true ∧
  ∃ u a w',
    handleSend (Rejected (AxiosError None JUndefined)) w = (inr (), w') ∧
    messages (ui w') = messages (ui w) ++ [u; a] ∧
    role u = user ∧ content u = JString (input (ui w)) ∧
    role a = agent ∧ content a = JString connection_trouble ∧
    action a = None ∧
    loading (ui w') = false.
Proof.
  intros w. split; [reflexivity|].
  apply (C3_failed_turn w (AxiosError None JUndefined)). reflexivity.
Defined.

(** ** Claims on the agent message built from a reply *)

Lemma strict_eq_string_true (v : JsValue) (lit : jsstring) :
  strict_eq_string v lit = true ↔ v = JString lit.
Proof.
  destruct v; simpl; try (split; [discriminate | intros [=]]).
  rewrite bool_decide_eq_true. split; [intros -> | intros [=]]; congruence.
Qed.

(** The turn's second half for a reply whose payload can be read: the
    message of lines 65-74 is appended as it stands. *)
Lemma handleSend_resume_reply (w : World) (res : Response) (rt tk sl : JsValue) :
  get_member (Api.data res) (str "response_text") = inr rt →
  get_member (Api.data res) (str "action_taken") = inr tk →
  get_member (Api.data res) (str "slots") = inr sl →
  ∃ w',
    handleSend_resume (response_interceptor (Resolved res)) w = (inr (), w') ∧
    messages (ui w') = messages (ui w) ++
      [ {| id := number_toString (clock w (ticks w) + 1);
           role := agent;
           content := or_else rt (JString no_text_response);
           action := if strict_eq_string tk (str "booking_intent")
                     then Some {| type := booking_suggestion;
                                  label := str "View Available Slots";
                                  data := sl |}
                     else None |} ].
Proof.
  intros Hrt Htk Hsl. eexists.
  unfold handleSend_resume, try_catch_finally, mbind, M_bind, await, mret, M_ret.
  cbn [response_interceptor].
  rewrite (agentMsg_spec _ _ _ _ _ Hrt Htk Hsl). cbn.
  split; reflexivity.
Qed.

(** When one property of the payload can be read, all of them can. *)
Lemma get_member_total (d : JsValue) (k k' : jsstring) (v : JsValue) :
  get_member d k = inr v → ∃ v', get_member d k' = inr v'.
Proof.
  intros Hk. destruct (get_member_cases d) as [Hthrow | Hok].
  - rewrite Hthrow in Hk. discriminate.
  - apply Hok.
Qed.



(** C5, as stated, fails on the content: a booking reply whose
    [response_text] is the empty string gets the placeholder as content,
    not its own [response_text]. *)
Lemma C5_booking_intent_counterexample :
  let w := {| ui := {| messages := [welcome]; input := [];
                       loading := true |};
              console := []; clock := λ n, 1700000000000 + Z.of_nat n;
              ticks := 1 |} in
  let res := {| status := 200;
                Api.data := JObject [ (str "response_text", JString []);
                                      (str "action_taken",
                                       JString (str "booking_intent"));
                                      (str "slots", JArray []) ] |} in
  get_member (Api.data res) (str "action_taken")
    = inr (JString (str "booking_intent")) ∧
  get_member (Api.data res) (str "response_text") = inr (JString []) ∧
  ∃ m w',
    handleSend_resume (response_interceptor (Resolved res)) w = (inr (), w') ∧
    messages (ui w') = messages (ui w) ++ [m] ∧
    content m = JString no_text_response ∧
    content m ≠ JString [].
Proof.
  intros w res. split; [reflexivity|]. split; [reflexivity|].
  destruct (handleSend_resume_reply w res (JString [])
              (JString (str "booking_intent")) (JArray []))
    as (w' & Hrun & Hlog); try reflexivity.
  eexists _, w'. split; [exact Hrun|]. split; [exact Hlog|].
  split; [reflexivity | discriminate].
Qed.

(** C5 (amended): for a reply with [action_taken] equal to
    ["booking_intent"] the appended agent message carries the action
    [booking_suggestion] with the reply's [slots] as data, and its content
    is the reply's [response_text] when that is truthy and the placeholder
    otherwise; for any other [action_taken] the message has no action. *)
Theorem C5_booking_intent_action (w : World) (res : Response)
    (rt tk sl : JsValue) :
  get_member (Api.data res) (str "response_text") = inr rt →
  get_member (Api.data res) (str "action_taken") = inr tk →
  get_member (Api.data res) (str "slots") = inr sl →
  ∃ m w',
    handleSend_resume (response_interceptor (Resolved res)) w = (inr (), w') ∧
    messages (ui w') = messages (ui w) ++ [m] ∧
    role m = agent ∧
    (to_boolean rt = true → content m = rt) ∧
    (to_boolean rt = false → content m = JString no_text_response) ∧
    (tk = JString (str "booking_intent") →
     action m = Some {| type := booking_suggestion;
                        label := str "View Available Slots";
                        data := sl |}) ∧
    (tk ≠ JString (str "booking_intent") → action m = None).
Proof.
  intros Hrt Htk Hsl.
  destruct (handleSend_resume_reply w res _ _ _ Hrt Htk Hsl) as (w' & Hrun & Hlog).
  eexists _, w'. split; [exact Hrun|]. split; [exact Hlog|].
  split; [reflexivity|]. cbn [content action]. unfold or_else.
  repeat split.
  - intros ->. reflexivity.
  - intros ->. reflexivity.
  - intros Heq. apply strict_eq_string_true in Heq. rewrite Heq. reflexivity.
  - intros Hne. destruct (strict_eq_string tk (str "booking_intent")) eqn:Heq;
      [|reflexivity].
    apply strict_eq_string_true in Heq. contradiction.
Qed.

Lemma C5_booking_intent_action_witness :
  let w := {| ui := {| messages := [welcome]; input := [];
                       loading := true |};
              console := []; clock := λ n, 1700000000000 + Z.of_nat n;
              ticks := 1 |} in
  let slots := JArray [ JObject [ (str "id", JString (str "S1")) ] ] in
  let res := {| status := 200;
                Api.data := JObject [ (str "response_text",
                                       JString (str "Here are available slots"));
                                      (str "action_taken",
                                       JString (str "booking_intent"));
                                      (str "slots", slots) ] |} in
  ∃ m w',
    handleSend_resume (response_interceptor (Resolved res)) w = (inr (), w') ∧
    messages (ui w') = messages (ui w) ++ [m] ∧
    content m = JString (str "Here are available slots") ∧
    action m = Some {| type := booking_suggestion;
                       label := str "View Available Slots";
                       data := slots |}.
Proof.
  intros w slots res.
  destruct (C5_booking_intent_action w res
              (JString (str "Here are available slots"))
              (JString (str "booking_intent")) slots
              eq_refl eq_refl eq_refl)
    as (m & w' & Hrun & Hlog & _ & Hcontent & _ & Haction & _).
  exists m, w'. split; [exact Hrun|]. split; [exact Hlog|].
  split; [apply Hcontent; reflexivity | apply Haction; reflexivity].
Defined.

(** C10: a [response_text] that is present but falsy, the empty string in
    particular, is replaced by the placeholder as well. *)
Theorem C10_falsy_response_text (w : World) (res : Response) (rt : JsValue) :
  get_member (Api.data res) (str "response_text") = inr rt →
  to_boolean rt = false →
  ∃ m w',
    handleSend_resume (response_interceptor (Resolved res)) w = (inr (), w') ∧
    messages (ui w') = messages (ui w) ++ [m] ∧
    role m = agent ∧
    content m = JString (str "I processed that, but have no text response.").
Proof.
  intros Hrt Hfalsy.
  destruct (get_member_total _ _ (str "action_taken") _ Hrt) as [tk Htk].
  destruct (get_member_total _ _ (str "slots") _ Hrt) as [sl Hsl].
  destruct (handleSend_resume_reply w res _ _ _ Hrt Htk Hsl) as (w' & Hrun & Hlog).
  eexists _, w'. split; [exact Hrun|]. split; [exact Hlog|].
  split; [reflexivity|]. cbn [content]. unfold or_else. rewrite Hfalsy.
  reflexivity.
Qed.

Lemma C10_falsy_response_text_witness :
  let w := {| ui := {| messages := [welcome]; input := [];
                       loading := true |};
              console := []; clock := λ n, 1700000000000 + Z.of_nat n;
              ticks := 1 |} in
  let res := {| status := 200;
                Api.data := JObject [ (str "response_text", JString []) ] |} in
  get_member (Api.data res) (str "response_text") = inr (JString []) ∧
  to_boolean (JString []) = false ∧
  ∃ m w',
    handleSend_resume (response_interceptor (Resolved res)) w = (inr (), w') ∧
    messages (ui w') = messages (ui w) ++ [m] ∧
    role m = agent ∧
    content m = JString (str "I processed that, but have no text response.").
Proof.
  intros w res. split; [reflexivity|]. split; [reflexivity|].
  apply (C10_falsy_response_text w res (JString [])); reflexivity.
Defined.

(** ** Claims on the transport client and the agent facade *)

(** The request interceptor always returns a configuration, and touches
    nothing but the [Authorization] header. *)
Lemma request_interceptor_frame (window : Window) (config : Config) :
  ∃ config',
    request_interceptor window config = inr config' ∧
    method config' = method config ∧
    baseURL config' = baseURL config ∧
    url config' = url config ∧
    body config' = body config ∧
    ∀ k, k ≠ str "Authorization" → headers config' !! k = headers config !! k.
Proof.
  unfold request_interceptor.
  destruct window as [localStorage|]; [|eexists; repeat split; reflexivity].
  destruct (getItem localStorage (str "token")) as [token|];
    [|eexists; repeat split; reflexivity].
  destruct (to_boolean (JString token));
    [|eexists; repeat split; reflexivity].
  eexists. repeat split. intros k Hk. cbn [headers].
  apply lookup_insert_ne. congruence.
Qed.

(** What [await api.post(url, b)] amounts to: one configuration carrying
    [b] to [url] is handed to the backend, and its settlement decides the
    result. *)
Lemma post_dispatch (window : Window) (backend : Config → Settled)
    (u : jsstring) (b : JsValue) :
  ∃ config,
    post_request window u b = inr config ∧
    url config = u ∧ body config = b ∧ method config = str "post" ∧
    post window backend u b =
      match backend config with
      | Resolved response => inr response
      | Rejected error => inl error
      end.
Proof.
  destruct (request_interceptor_frame window (post_config u b))
    as (config & Hreq & Hm & _ & Hu & Hb & _).
  exists config. unfold post, post_request. rewrite Hreq.
  rewrite response_interceptor_id. repeat split; assumption.
Qed.

(** C6: whatever the browser state and the backend, [bookSlot] sends one
    request to [/agent/execute] whose body has [agent_type] "appointment",
    [intent] "book", and the two arguments as [slot_id] and
    [patient_id]; so [bookSlot("S1", "P1")] carries "S1" and "P1". *)
Theorem C6_bookSlot_body (window : Window) (backend : Config → Settled)
    (slotId patientId : jsstring) :
  ∃ config,
    post_request window (str "/agent/execute")
      (AgentAPI.bookSlot_body slotId patientId) = inr config ∧
    AgentAPI.bookSlot window backend slotId patientId =
      match backend config with
      | Resolved response => inr (Api.data response)
      | Rejected error => inl error
      end ∧
    own_property (body config) (str "agent_type")
      = Some (JString (str "appointment")) ∧
    own_property (body config) (str "intent") = Some (JString (str "book")) ∧
    own_property (body config) (str "slot_id") = Some (JString slotId) ∧
    own_property (body config) (str "patient_id") = Some (JString patientId).
Proof.
  destruct (post_dispatch window backend (str "/agent/execute")
              (AgentAPI.bookSlot_body slotId patientId))
    as (config & Hreq & _ & Hb & _ & Hpost).
  exists config. split; [exact Hreq|]. split.
  - unfold AgentAPI.bookSlot. rewrite Hpost.
    destruct (backend config); reflexivity.
  - rewrite Hb. repeat split; reflexivity.
Qed.

(** With no credential in a storage that can be read, or without a
    [window], the request interceptor returns the configuration it was
    given, and a request made through [api.post] goes out without an
    [Authorization] header. *)
Lemma request_interceptor_no_credential (window : Window) (config : Config) :
  stored_credential window = None →
  request_interceptor window config = inr config ∧
  ∀ u b, ∃ sent,
    post_request window u b = inr sent ∧
    headers sent !! str "Authorization" = None.
Proof.
  intros Hnone.
  assert (Hid : ∀ c, request_interceptor window c = inr c).
  { intros c. unfold request_interceptor.
    destruct window as [localStorage|]; [|reflexivity].
    simpl in Hnone. rewrite Hnone. reflexivity. }
  split; [apply Hid|].
  intros u b. exists (post_config u b). split; [apply Hid|].
  reflexivity.
Qed.

(** C7, as stated, fails in a browser that denies access to storage: no
    credential is stored there, yet the read of [localStorage] on line 18
    throws, and the request is not dispatched. *)
Lemma C7_storage_denied_counterexample :
  let config := post_config (str "/agent/execute")
                  (AgentAPI.bookSlot_body (str "S1") (str "P1")) in
  ApiStorage.credential_in ApiStorage.Denied = None ∧
  ApiStorage.request_interceptor_in ApiStorage.Denied config
    = inl SecurityError ∧
  ApiStorage.request_interceptor_in ApiStorage.Denied config ≠ inr config.
Proof.
  intros config. split; [reflexivity|]. split; [reflexivity | discriminate].
Qed.

(** C7 (amended): where storage can be read, or there is no [window],
    and no credential is stored, the request interceptor returns the
    configuration it was given, without throwing; a request made through
    [api.post] then goes out without an [Authorization] header. *)
Theorem C7_no_credential_readable_storage
    (access : ApiStorage.StorageAccess) (config : Config) :
  ApiStorage.storage_readable access = true →
  ApiStorage.credential_in access = None →
  ApiStorage.request_interceptor_in access config = inr config ∧
  ∀ u b, ∃ sent,
    ApiStorage.post_request_in access u b = inr sent ∧
    headers sent !! str "Authorization" = None.
Proof.
  intros Hreadable Hnone.
  destruct access as [ | localStorage | ]; [| |discriminate Hreadable].
  - exact (request_interceptor_no_credential None config eq_refl).
  - exact (request_interceptor_no_credential (Some localStorage) config Hnone).
Qed.

Lemma C7_no_credential_readable_storage_witness :
  let access := ApiStorage.Readable {[ str "theme" := str "dark" ]} in
  let config := post_config (str "/agent/execute")
                  (AgentAPI.bookSlot_body (str "S1") (str "P1")) in
  ApiStorage.storage_readable access = true ∧
  ApiStorage.credential_in access = None ∧
  ApiStorage.request_interceptor_in access config = inr config.
Proof.
  intros access config.
  assert (Hnone : ApiStorage.credential_in access = None)
    by (vm_compute; reflexivity).
  split; [reflexivity|]. split; [exact Hnone|].
  exact (proj1 (C7_no_credential_readable_storage access config eq_refl Hnone)).
Defined.

(** C8, as stated, fails for the chat session: the widget does not go
    through [AgentAPI.sendMessage]; it posts [user_query] and [session_id]
    only, so its request carries no [agent_type] (not even [null]), no
    [role] and no [context]. *)
Lemma C8_widget_request_counterexample :
  let w := {| ui := {| messages := [welcome]; input := str "hi";
                       loading := false |};
              console := []; clock := λ _, 1700000000000; ticks := 0 |} in
  ∃ b w',
    handleSend_begin w = (inr (Some (str "/agent/execute", b)), w') ∧
    own_property b (str "agent_type") = None ∧
    own_property b (str "role") = None ∧
    own_property b (str "context") = None ∧
    b ≠ AgentAPI.sendMessage_body (str "hi") JUndefined JUndefined.
Proof.
  intros w. eexists _, _.
  split; [apply handleSend_begin_sends; reflexivity|].
  repeat split; discriminate.
Qed.

(** C8 (amended): [AgentAPI.sendMessage] posts to [/agent/execute] a body
    with [user_query], [role], [context] and an [agent_type] property that
    is present and [null]; a turn of the chat widget posts to the same
    path directly, with [user_query] and the fixed [session_id] only. *)
Theorem C8_request_bodies (window : Window) (backend : Config → Settled)
    (query : jsstring) (context role : JsValue) (w : World) :
  sendable (input (ui w)) = true →
  (∃ config,
     post_request window (str "/agent/execute")
       (AgentAPI.sendMessage_body query context role) = inr config ∧
     AgentAPI.sendMessage window backend query context role =
       match backend config with
       | Resolved response => inr (Api.data response)
       | Rejected error => inl error
       end ∧
     own_property (body config) (str "user_query") = Some (JString query) ∧
     own_property (body config) (str "role")
       = Some (AgentAPI.default_param role (JString (str "patient"))) ∧
     own_property (body config) (str "context")
       = Some (AgentAPI.default_param context (JObject [])) ∧
     own_property (body config) (str "agent_type") = Some JNull) ∧
  (∃ w',
     handleSend_begin w =
       (inr (Some (str "/agent/execute",
                   JObject [ (str "user_query", JString (input (ui w)));
                             (str "session_id",
                              JString (str "patient-session-1")) ])), w')).
Proof.
  intros Hs. split.
  - destruct (post_dispatch window backend (str "/agent/execute")
                (AgentAPI.sendMessage_body query context role))
      as (config & Hreq & _ & Hb & _ & Hpost).
    exists config. split; [exact Hreq|]. split.
    + unfold AgentAPI.sendMessage. rewrite Hpost.
      destruct (backend config); reflexivity.
    + rewrite Hb. repeat split; reflexivity.
  - eexists. apply handleSend_begin_sends. exact Hs.
Qed.

Lemma C8_request_bodies_witness :
  let w := {| ui := {| messages := [welcome]; input := str "hi";
                       loading := false |};
              console := []; clock := λ _, 1700000000000; ticks := 0 |} in
  sendable (input (ui w)) = true ∧
  (∃ config,
     post_request None (str "/agent/execute")
       (AgentAPI.sendMessage_body (str "hi") JUndefined JUndefined)
       = inr config ∧
     own_property (body config) (str "agent_type") = Some JNull) ∧
  (∃ b w',
     handleSend_begin w = (inr (Some (str "/agent/execute", b)), w') ∧
     own_property b (str "agent_type") = None).
Proof.
  intros w. split; [reflexivity|].
  destruct (C8_request_bodies None
              (λ _, Rejected (AxiosError None JUndefined))
              (str "hi") JUndefined JUndefined w eq_refl)
    as [(config & Hreq & _ & _ & _ & _ & Hnull) [w' Hsend]].
  split.
  - exists config. split; assumption.
  - eexists _, w'. split; [exact Hsend | reflexivity].
Defined.

(** ** Message identifiers *)

Lemma str_inj (s t : string) : str s = str t → s = t.
Proof.
  unfold str. intros Heq.
  rewrite <- (string_of_list_ascii_of_string s),
          <- (string_of_list_ascii_of_string t).
  f_equal. revert Heq.
  generalize (list_ascii_of_string s) (list_ascii_of_string t).
  induction l as [|a l IH]; intros [|b l']; simpl; intros [=]; [reflexivity|].
  f_equal; [|apply IH; assumption].
  rewrite <- (ascii_N_embedding a), <- (ascii_N_embedding b). congruence.
Qed.

Lemma number_toString_inj (m n : Z) :
  number_toString m = number_toString n → m = n.
Proof.
  unfold number_toString. intros Heq. apply str_inj in Heq.
  exact (pretty_Z_inj _ _ Heq).
Qed.

(** On the success path the [+ 1] of line 66 keeps the two messages of a
    turn apart as long as the clock does not run backwards. *)
Lemma successful_turn_ids_differ (w : World) (res : Response)
    (rt tk sl : JsValue) :
  sendable (input (ui w)) = true →
  clock w (ticks w) ≤ clock w (S (ticks w)) →
  get_member (Api.data res) (str "response_text") = inr rt →
  get_member (Api.data res) (str "action_taken") = inr tk →
  get_member (Api.data res) (str "slots") = inr sl →
  ∃ call w1 w2 u a,
    handleSend_begin w = (inr (Some call), w1) ∧
    handleSend_resume (response_interceptor (Resolved res)) w1 = (inr (), w2) ∧
    messages (ui w2) = messages (ui w) ++ [u; a] ∧
    id u ≠ id a.
Proof.
  intros Hs Hclock Hrt Htk Hsl. rewrite (handleSend_begin_sends w Hs).
  match goal with |- context [(_, ?w1) = (_, _)] => set (w1' := w1) end.
  destruct (handleSend_resume_reply w1' res _ _ _ Hrt Htk Hsl)
    as (w2 & Hrun & Hlog).
  eexists _, w1', w2, _, _. split; [reflexivity|]. split; [exact Hrun|].
  split; [rewrite Hlog; simpl; rewrite <- app_assoc; reflexivity|].
  simpl. intros Heq. apply number_toString_inj in Heq. lia.
Qed.

(** C9 fails on the failure path: the [catch] block takes its identifier
    from [Date.now()] without the [+ 1], so a request that is rejected
    within the millisecond of the send gives the apology the identifier
    of the user message.  The state below is reached by typing "hi",
    submitting, and the request failing, with the clock at
    1700000000000 throughout. *)
Lemma C9_duplicate_ids_on_failure :
  ∃ wd,
    run [ Typing (str "hi"); Submit;
          Settle (Rejected (AxiosError None JUndefined)) ]
        (mount (λ _, 1700000000000)) = Some wd ∧
    reachable wd ∧
    id <$> messages (ui (world wd))
      = [str "welcome"; str "1700000000000"; str "1700000000000"] ∧
    ¬ NoDup (id <$> messages (ui (world wd))).
Proof.
  eexists. split; [reflexivity|]. split.
  - exists (λ _, 1700000000000),
      [ Typing (str "hi"); Submit;
        Settle (Rejected (AxiosError None JUndefined)) ].
    reflexivity.
  - split; [vm_compute; reflexivity|].
    intros Hnd. vm_compute in Hnd.
    apply NoDup_cons in Hnd as [_ Hnd].
    apply NoDup_cons in Hnd as [Hnotin _].
    apply Hnotin. left.
Qed.

(** * Further properties of the chat widget *)

Import ChatLog.

(** ** Reasoning along the events of a mounted widget *)

Lemma run_app (es es' : list Event) (wd : Widget) :
  run (es ++ es') wd = wd' ← run es wd; run es' wd'.
Proof.
  revert wd. induction es as [|e es IH]; intros wd; simpl; [reflexivity|].
  destruct (step e wd); simpl; [apply IH | reflexivity].
Qed.

Lemma reachable_step (e : Event) (wd wd' : Widget) :
  reachable wd → step e wd = Some wd' → reachable wd'.
Proof.
  intros (clk & es & Hrun) Hstep. exists clk, (es ++ [e]).
  rewrite run_app, Hrun. simpl. rewrite Hstep. reflexivity.
Qed.

(** Induction over the reachable states. *)
Lemma reachable_ind (P : Widget → Prop) :
  (∀ clk, P (mount clk)) →
  (∀ e wd wd', reachable wd → P wd → step e wd = Some wd' → P wd') →
  ∀ wd, reachable wd → P wd.
Proof.
  intros Hmount Hstep wd (clk & es & Hrun).
  assert (Hgen : ∀ es wd0, reachable wd0 → P wd0 → run es wd0 = Some wd → P wd).
  { clear es Hrun. induction es as [|e es IH]; intros wd0 Hr0 HP0 Hrun;
      simpl in Hrun.
    - congruence.
    - destruct (step e wd0) as [wd1|] eqn:Hs; [|discriminate].
      apply (IH wd1); [eapply reachable_step | eapply Hstep | ]; eassumption. }
  apply (Hgen es (mount clk)); [exists clk, []; reflexivity | apply Hmount | exact Hrun].
Qed.

(** The second half of the handler on a reply whose payload is [null] or
    [undefined]: the clock is read twice, the [TypeError] is logged and
    the apology appended. *)
Lemma handleSend_resume_null (w : World) (res : Response) :
  (∀ k, get_member (Api.data res) k = inl TypeError) →
  handleSend_resume (Resolved res) w =
    (inr (),
     {| ui := {| messages := messages (ui w) ++
                   [ {| id := number_toString (clock w (S (ticks w)));
                        role := agent;
                        content := JString connection_trouble;
                        action := None |} ];
                 input := input (ui w);
                 loading := false |};
        console := console w ++ [TypeError];
        clock := clock w;
        ticks := S (S (ticks w)) |}).
Proof.
  intros Hthrow.
  unfold handleSend_resume, try_catch_finally, mbind, M_bind, await, mret, M_ret.
  rewrite (agentMsg_throws _ _ Hthrow). reflexivity.
Qed.

(** The second half of the handler on a reply whose payload can be read. *)
Lemma handleSend_resume_payload (w : World) (res : Response)
    (rt tk sl : JsValue) :
  get_member (Api.data res) (str "response_text") = inr rt →
  get_member (Api.data res) (str "action_taken") = inr tk →
  get_member (Api.data res) (str "slots") = inr sl →
  handleSend_resume (Resolved res) w =
    (inr (),
     {| ui := {| messages := messages (ui w) ++
                   [ {| id := number_toString (clock w (ticks w) + 1);
                        role := agent;
                        content := or_else rt (JString no_text_response);
                        action := if strict_eq_string tk (str "booking_intent")
                                  then Some {| type := booking_suggestion;
                                               label := str "View Available Slots";
                                               data := sl |}
                                  else None |} ];
                 input := input (ui w);
                 loading := false |};
        console := console w;
        clock := clock w;
        ticks := S (ticks w) |}).
Proof.
  intros Hrt Htk Hsl.
  unfold handleSend_resume, try_catch_finally, mbind, M_bind, await, mret, M_ret.
  rewrite (agentMsg_spec _ _ _ _ _ Hrt Htk Hsl). reflexivity.
Qed.

Lemma apology_agent_message (i : jsstring) :
  agent_message {| id := i; role := agent;
                   content := JString connection_trouble; action := None |}.
Proof. split; [reflexivity|]. split; [reflexivity|]. left. reflexivity. Qed.

Lemma reply_agent_message (i : jsstring) (rt tk sl : JsValue) :
  agent_message
    {| id := i; role := agent;
       content := or_else rt (JString no_text_response);
       action := if strict_eq_string tk (str "booking_intent")
                 then Some {| type := booking_suggestion;
                              label := str "View Available Slots";
                              data := sl |}
                 else None |}.
Proof.
  split; [reflexivity|]. split.
  - cbn [content]. unfold or_else.
    destruct (to_boolean rt) eqn:Hb; [exact Hb | reflexivity].
  - cbn [action].
    destruct (strict_eq_string tk (str "booking_intent"));
      [right; eexists | left]; reflexivity.
Qed.

(** What the second half of the handler does to the component, whatever
    the outcome of the request. *)
Lemma handleSend_resume_effect (s : Settled) (w : World) :
  ∃ m i,
    messages (ui (handleSend_resume s w).2) = messages (ui w) ++ [m] ∧
    input (ui (handleSend_resume s w).2) = input (ui w) ∧
    loading (ui (handleSend_resume s w).2) = false ∧
    clock (handleSend_resume s w).2 = clock w ∧
    (ticks w ≤ i < ticks (handleSend_resume s w).2)%nat ∧
    (id m = number_toString (clock w i) ∨
     id m = number_toString (clock w i + 1)) ∧
    agent_message m.
Proof.
  destruct s as [res | error].
  - destruct (get_member_cases (Api.data res)) as [Hthrow | Hok].
    + rewrite (handleSend_resume_null _ _ Hthrow).
      eexists _, (S (ticks w)). cbn [snd ui messages input loading clock ticks id].
      split; [reflexivity|]. do 3 (split; [reflexivity|]).
      split; [lia|]. split; [left; reflexivity | apply apology_agent_message].
    + destruct (Hok (str "response_text")) as [rt Hrt].
      destruct (Hok (str "action_taken")) as [tk Htk].
      destruct (Hok (str "slots")) as [sl Hsl].
      rewrite (handleSend_resume_payload _ _ _ _ _ Hrt Htk Hsl).
      eexists _, (ticks w). cbn [snd ui messages input loading clock ticks id].
      split; [reflexivity|]. do 3 (split; [reflexivity|]).
      split; [lia|]. split; [right; reflexivity | apply reply_agent_message].
  - rewrite handleSend_resume_rejected.
    eexists _, (ticks w). cbn [snd ui messages input loading clock ticks id].
    split; [reflexivity|]. do 3 (split; [reflexivity|]).
    split; [lia|]. split; [left; reflexivity | apply apology_agent_message].
Qed.

(** The four ways an event changes a mounted widget. *)
Lemma step_cases (e : Event) (wd wd' : Widget) :
  step e wd = Some wd' →
  (∃ text, e = Typing text ∧ loading (ui (world wd)) = false ∧
     wd' = {| world := (setInput text (world wd)).2; in_flight := in_flight wd |}) ∨
  (e = Submit ∧ sendable (input (ui (world wd))) = false ∧ wd' = wd) ∨
  (e = Submit ∧ sendable (input (ui (world wd))) = true ∧
     wd' = {| world := (handleSend_begin (world wd)).2;
              in_flight := S (in_flight wd) |}) ∨
  (∃ s, e = Settle s ∧ in_flight wd = S (in_flight wd') ∧
     world wd' = (handleSend_resume (response_interceptor s) (world wd)).2).
Proof.
  intros Hstep. destruct e as [text | | s]; simpl in Hstep.
  - left. exists text.
    destruct (loading (ui (world wd))) eqn:Hl; [discriminate|].
    injection Hstep as <-. repeat split. simpl. rewrite Hl. reflexivity.
  - destruct (sendable (input (ui (world wd)))) eqn:Hs.
    + right; right; left. rewrite (handleSend_begin_sends _ Hs) in Hstep |- *.
      injection Hstep as <-. auto.
    + right; left. rewrite (handleSend_begin_blank _ Hs) in Hstep.
      injection Hstep as <-. destruct wd; auto.
  - right; right; right. exists s.
    destruct (in_flight wd); [discriminate|]. injection Hstep as <-. auto.
Qed.

(** ** One request at a time *)

(** At most one request of the widget is in flight, and [loading] is true
    exactly while one is. *)
Theorem chat_one_request_in_flight (wd : Widget) :
  reachable wd →
  (in_flight wd ≤ 1)%nat ∧
  (loading (ui (world wd)) = true ↔ in_flight wd = 1%nat).
Proof.
  intros Hreach. destruct (reachable_pending_inv wd Hreach) as [_ Hcount].
  rewrite Hcount. destruct (loading (ui (world wd))); split; try lia;
    split; congruence.
Qed.

Lemma chat_one_request_in_flight_witness :
  ∃ wd,
    run [Typing (str "hi"); Submit; Submit; Submit] (mount (λ _, 0)) = Some wd ∧
    (in_flight wd ≤ 1)%nat ∧
    (loading (ui (world wd)) = true ↔ in_flight wd = 1%nat).
Proof.
  eexists. split; [reflexivity|].
  apply chat_one_request_in_flight.
  exists (λ _, 0), [Typing (str "hi"); Submit; Submit; Submit]. reflexivity.
Defined.

(** ** The log only grows *)

Lemma step_appends (e : Event) (wd wd' : Widget) :
  step e wd = Some wd' →
  ∃ more, messages (ui (world wd')) = messages (ui (world wd)) ++ more ∧
          (length more ≤ 1)%nat.
Proof.
  intros Hstep.
  destruct (step_cases _ _ _ Hstep)
    as [(text & _ & _ & ->) | [(_ & _ & ->) | [(_ & Hs & ->) | (s & _ & _ & Hw)]]].
  - exists []. rewrite app_nil_r. split; [reflexivity | simpl; lia].
  - exists []. rewrite app_nil_r. split; [reflexivity | simpl; lia].
  - rewrite (handleSend_begin_sends _ Hs). eexists [_].
    split; [reflexivity | simpl; lia].
  - rewrite Hw.
    destruct (handleSend_resume_effect (response_interceptor s) (world wd))
      as (m & i & Hlog & _).
    exists [m]. split; [exact Hlog | simpl; lia].
Qed.

(** Whatever happens to the widget, the messages already in the log stay
    where they are, unchanged; each event appends at most one message. *)
Theorem chat_log_append_only (es : list Event) (wd wd' : Widget) :
  run es wd = Some wd' →
  ∃ more, messages (ui (world wd')) = messages (ui (world wd)) ++ more ∧
          (length more ≤ length es)%nat.
Proof.
  revert wd. induction es as [|e es IH]; intros wd Hrun; simpl in Hrun.
  - injection Hrun as <-. exists []. rewrite app_nil_r.
    split; [reflexivity | simpl; lia].
  - destruct (step e wd) as [wd1|] eqn:Hstep; [|discriminate].
    destruct (step_appends _ _ _ Hstep) as (m1 & Hlog1 & Hlen1).
    destruct (IH _ Hrun) as (m2 & Hlog2 & Hlen2).
    exists (m1 ++ m2). rewrite Hlog2, Hlog1, <- app_assoc.
    split; [reflexivity|]. rewrite length_app. simpl. lia.
Qed.

Lemma chat_log_append_only_witness :
  ∃ wd' more,
    run [Typing (str "hi"); Submit; Settle (Rejected TypeError)]
        (mount (λ _, 0)) = Some wd' ∧
    messages (ui (world wd')) = [welcome] ++ more ∧
    (length more ≤ 3)%nat.
Proof.
  eexists.
  refine (let H := chat_log_append_only
            [Typing (str "hi"); Submit; Settle (Rejected TypeError)]
            (mount (λ _, 0)) _ eq_refl in _).
  destruct H as (more & Hlog & Hlen).
  exists more. split; [reflexivity|]. split; assumption.
Defined.

(** ** Turns alternate *)

Lemma turn_roles_open (n : nat) :
  turn_roles n false ++ [user] = turn_roles n true.
Proof. unfold turn_roles. rewrite app_nil_r. reflexivity. Qed.

Lemma turn_roles_close (n : nat) :
  turn_roles n true ++ [agent] = turn_roles (S n) false.
Proof.
  unfold turn_roles. rewrite app_nil_r. simpl. f_equal.
  rewrite <- app_assoc. simpl.
  induction n as [|n IH]; [reflexivity|].
  simpl. rewrite IH. reflexivity.
Qed.

(** In every reachable state the log is the greeting followed by whole
    turns, each a user message and then its agent message, plus the user
    message of the open turn exactly while a request is pending: replies
    never interleave. *)
Theorem chat_log_takes_turns (wd : Widget) :
  reachable wd →
  ∃ n, role <$> messages (ui (world wd))
       = turn_roles n (loading (ui (world wd))).
Proof.
  intros Hreach. pattern wd. revert wd Hreach. apply reachable_ind.
  - intros clk. exists 0%nat. reflexivity.
  - intros e wd wd' Hreach [n Hroles] Hstep.
    destruct (reachable_pending_inv wd Hreach) as [Hempty Hcount].
    destruct (step_cases _ _ _ Hstep)
      as [(text & _ & Hl & ->) | [(_ & _ & ->) | [(_ & Hs & ->) | (s & _ & Hfl & Hw)]]].
    + exists n. simpl. exact Hroles.
    + exists n. exact Hroles.
    + destruct (loading (ui (world wd))) eqn:Hl.
      { rewrite Hempty in Hs by reflexivity. discriminate. }
      exists n. rewrite (handleSend_begin_sends _ Hs).
      cbn [snd world ui messages loading]. rewrite fmap_app, Hroles.
      apply turn_roles_open.
    + destruct (loading (ui (world wd))) eqn:Hl; [|rewrite Hcount in Hfl; discriminate].
      destruct (handleSend_resume_effect (response_interceptor s) (world wd))
        as (m & i & Hlog & _ & Hl' & _ & _ & _ & Hrole & _).
      exists (S n). rewrite Hw, Hl', Hlog, fmap_app, Hroles. simpl.
      rewrite Hrole. apply turn_roles_close.
Qed.

Lemma chat_log_takes_turns_witness :
  ∃ wd,
    run [ Typing (str "hi"); Submit; Settle (Rejected TypeError);
          Typing (str "again"); Submit ] (mount (λ _, 0)) = Some wd ∧
    ∃ n, role <$> messages (ui (world wd))
         = turn_roles n (loading (ui (world wd))).
Proof.
  eexists. split; [vm_compute; reflexivity|].
  apply chat_log_takes_turns.
  exists (λ _, 0), [ Typing (str "hi"); Submit; Settle (Rejected TypeError);
                     Typing (str "again"); Submit ].
  vm_compute. reflexivity.
Defined.

(** ** What the log can contain *)

Lemma chat_log_kinds (wd : Widget) :
  reachable wd →
  Forall (λ m, m = welcome ∨ user_message m ∨ agent_message m)
         (messages (ui (world wd))).
Proof.
  intros Hreach. pattern wd. revert wd Hreach. apply reachable_ind.
  - intros clk. apply Forall_cons. split; [left; reflexivity | apply Forall_nil_2].
  - intros e wd wd' _ Hall Hstep.
    destruct (step_cases _ _ _ Hstep)
      as [(text & _ & _ & ->) | [(_ & _ & ->) | [(_ & Hs & ->) | (s & _ & _ & Hw)]]].
    + exact Hall.
    + exact Hall.
    + rewrite (handleSend_begin_sends _ Hs). cbn [snd world ui messages].
      apply Forall_app. split; [exact Hall|].
      apply Forall_cons. split; [|apply Forall_nil_2].
      right; left. split; [reflexivity|]. split; [reflexivity|].
      eexists. split; [reflexivity | exact Hs].
    + rewrite Hw.
      destruct (handleSend_resume_effect (response_interceptor s) (world wd))
        as (m & i & -> & _ & _ & _ & _ & _ & Hagent).
      apply Forall_app. split; [exact Hall|].
      apply Forall_cons. split; [|apply Forall_nil_2]. right; right. exact Hagent.
Qed.

(** No bubble of the chat is empty: every message of a reachable log has
    a truthy content, and every user message is a string that is not made
    of white space only. *)
Theorem chat_no_blank_message (wd : Widget) (m : Message) :
  reachable wd →
  m ∈ messages (ui (world wd)) →
  to_boolean (content m) = true ∧
  (role m = user →
   ∃ text, content m = JString text ∧
           forallb is_white_space text = false).
Proof.
  intros Hreach Hin.
  pose proof (chat_log_kinds wd Hreach) as Hall.
  rewrite Forall_forall in Hall.
  destruct (Hall m Hin) as [-> | [(Hrole & _ & text & Hc & Hs) | (Hrole & Htruthy & _)]].
  - split; [reflexivity | discriminate].
  - split.
    + rewrite Hc. unfold sendable, trim, trimEnd in Hs. cbn [to_boolean] in Hs |- *.
      destruct text; [discriminate Hs | reflexivity].
    + intros _. exists text. split; [exact Hc|].
      destruct (forallb is_white_space text) eqn:Hws; [|reflexivity].
      apply sendable_false_iff in Hws. congruence.
  - split; [exact Htruthy | congruence].
Qed.

Lemma chat_no_blank_message_witness :
  ∃ wd m,
    run [Typing (str " hi "); Submit] (mount (λ _, 7)) = Some wd ∧
    messages (ui (world wd)) = [welcome; m] ∧
    to_boolean (content m) = true.
Proof.
  eexists _, _. split; [vm_compute; reflexivity|]. split; [reflexivity|].
  refine (proj1 (chat_no_blank_message _ _ _ _)).
  - exists (λ _, 7), [Typing (str " hi "); Submit]. vm_compute. reflexivity.
  - apply list_elem_of_In. right. left. reflexivity.
Defined.

(** Actions are attached to agent messages only, and the only action the
    widget ever attaches is the booking suggestion with its fixed label;
    the [link] kind of the interface is never produced. *)
Theorem chat_actions_are_booking_suggestions (wd : Widget) (m : Message)
    (a : Action) :
  reachable wd →
  m ∈ messages (ui (world wd)) →
  action m = Some a →
  role m = agent ∧ type a = booking_suggestion ∧
  label a = str "View Available Slots".
Proof.
  intros Hreach Hin Ha.
  pose proof (chat_log_kinds wd Hreach) as Hall.
  rewrite Forall_forall in Hall.
  destruct (Hall m Hin) as [-> | [(_ & Hnone & _) | (Hrole & _ & [Hnone | [sl Hsome]])]].
  - discriminate.
  - congruence.
  - congruence.
  - rewrite Hsome in Ha. injection Ha as <-. auto.
Qed.

Lemma chat_actions_are_booking_suggestions_witness :
  let reply := {| status := 200;
                  Api.data := JObject [ (str "action_taken",
                                         JString (str "booking_intent")) ] |} in
  let a := {| type := booking_suggestion;
              label := str "View Available Slots";
              data := JUndefined |} in
  let m := {| id := str "8"; role := agent;
              content := JString no_text_response;
              action := Some a |} in
  ∃ wd,
    run [Typing (str "book"); Submit; Settle (Resolved reply)]
        (mount (λ _, 7)) = Some wd ∧
    m ∈ messages (ui (world wd)) ∧
    role m = agent ∧ type a = booking_suggestion ∧
    label a = str "View Available Slots".
Proof.
  intros reply a m. eexists.
  split; [vm_compute; reflexivity|].
  match goal with |- ?G ∧ _ => assert (Hin : G) end.
  { apply list_elem_of_In. right. right. left. reflexivity. }
  split; [exact Hin|].
  refine (chat_actions_are_booking_suggestions _ m a _ Hin eq_refl).
  exists (λ _, 7), [Typing (str "book"); Submit; Settle (Resolved reply)].
  vm_compute. reflexivity.
Defined.

(** ** The guard, both ways *)

(** [handleSend] returns early, touching nothing and posting nothing,
    exactly when the text box holds white space only (or nothing). *)
Theorem send_ignored_iff_blank (w : World) :
  handleSend_begin w = (inr None, w) ↔
  forallb is_white_space (input (ui w)) = true.
Proof.
  rewrite <- sendable_false_iff. split.
  - intros Hnone. destruct (sendable (input (ui w))) eqn:Hs; [|reflexivity].
    rewrite (handleSend_begin_sends _ Hs) in Hnone. discriminate.
  - apply handleSend_begin_blank.
Qed.

(** ** A reply without a payload *)

(** A request that resolves with a [null] (or [undefined]) payload ends
    like a failed one: reading [response_text] throws inside the [try],
    the [TypeError] goes to the console, and the turn is closed with the
    apology. *)
Theorem null_payload_turn (w : World) (res : Response) :
  sendable (input (ui w)) = true →
  Api.data res = JNull ∨ Api.data res = JUndefined →
  ∃ u a w',
    handleSend (Resolved res) w = (inr (), w') ∧
    messages (ui w') = messages (ui w) ++ [u; a] ∧
    role u = user ∧
    role a = agent ∧ content a = JString connection_trouble ∧
    action a = None ∧
    console w' = console w ++ [TypeError] ∧
    loading (ui w') = false.
Proof.
  intros Hs Hnull.
  assert (Hthrow : ∀ k, get_member (Api.data res) k = inl TypeError).
  { intros k. destruct Hnull as [-> | ->]; reflexivity. }
  rewrite (handleSend_sends _ w Hs), (handleSend_begin_sends w Hs).
  cbn [snd response_interceptor].
  rewrite (handleSend_resume_null _ _ Hthrow).
  eexists _, _, _. split; [reflexivity|].
  split; [simpl; rewrite <- app_assoc; reflexivity|].
  repeat split; reflexivity.
Qed.

Lemma null_payload_turn_witness :
  let w := {| ui := {| messages := [welcome]; input := str "hi";
                       loading := false |};
              console := []; clock := λ n, Z.of_nat n; ticks := 0 |} in
  let res := {| status := 204; Api.data := JNull |} in
  sendable (input (ui w)) = true ∧
  ∃ u a w',
    handleSend (Resolved res) w = (inr (), w') ∧
    messages (ui w') = messages (ui w) ++ [u; a] ∧
    role u = user ∧
    role a = agent ∧ content a = JString connection_trouble ∧
    action a = None ∧
    console w' = console w ++ [TypeError] ∧
    loading (ui w') = false.
Proof.
  intros w res. split; [reflexivity|].
  apply (null_payload_turn w res); [reflexivity | left; reflexivity].
Defined.

(** ** Identifiers under a clock that advances *)

Lemma pretty_N_go_first (x : N) (s : string) (c : ascii) (r : string) :
  (∀ r', s ≠ String "w" r') →
  pretty_N_go x s ≠ String "w" r.
Proof.
  revert s. induction (N.lt_wf_0 x) as [x _ IH]; intros s Hs.
  assert (x = 0 ∨ 0 < x)%N as [-> | Hpos] by lia.
  - rewrite pretty_N_go_0. apply Hs.
  - rewrite pretty_N_go_step by exact Hpos. apply IH.
    + apply N.div_lt; [exact Hpos | reflexivity].
    + intros r'. unfold pretty_N_char. repeat case_match; discriminate.
Qed.

(** A time value never prints as the identifier of the greeting. *)
Lemma number_toString_not_welcome (z : Z) : number_toString z ≠ str "welcome".
Proof.
  unfold number_toString. intros Heq. apply str_inj in Heq. revert Heq.
  assert (HN : ∀ p, pretty (N.pos p) ≠ "welcome"%string).
  { intros p. unfold pretty, pretty_N. case_decide; [discriminate|].
    apply (pretty_N_go_first _ _ "w"%char). discriminate. }
  destruct z as [|p|p]; unfold pretty, pretty_Z; [discriminate | apply HN |].
  discriminate.
Qed.

Lemma gapped_lt (clk : nat → Z) (i j : nat) :
  gapped clk → (i < j)%nat → clk i + 1 < clk j.
Proof.
  intros Hgap Hij. induction Hij as [|j Hij IH]; [apply Hgap|].
  specialize (Hgap j). lia.
Qed.

Lemma gapped_le (clk : nat → Z) (i j : nat) :
  gapped clk → (i ≤ j)%nat → clk i ≤ clk j.
Proof.
  intros Hgap Hij. destruct (decide (i = j)) as [-> | Hne]; [lia|].
  assert (clk i + 1 < clk j) by (apply gapped_lt; [exact Hgap | lia]). lia.
Qed.

(** The identifiers of a log, as the time values they were printed from:
    all distinct, each taken from a reading the clock has already given. *)
Lemma chat_ids_from_clock (wd : Widget) :
  reachable wd →
  gapped (clock (world wd)) →
  ∃ zs, id <$> messages (ui (world wd))
          = str "welcome" :: (number_toString <$> zs) ∧
        NoDup zs ∧
        ∀ z, z ∈ zs → ∃ i, (i < ticks (world wd))%nat ∧
                            z ≤ clock (world wd) i + 1.
Proof.
  intros Hreach. pattern wd. revert wd Hreach. apply reachable_ind.
  - intros clk _. exists []. split; [reflexivity|]. split; [constructor|].
    intros z Hz. apply elem_of_nil in Hz. contradiction.
  - intros e wd wd' _ IH Hstep Hgap'.
    destruct (step_cases _ _ _ Hstep)
      as [(text & _ & _ & ->) | [(_ & _ & ->) | [(_ & Hs & ->) | (s & _ & _ & Hw)]]].
    + apply IH. exact Hgap'.
    + apply IH. exact Hgap'.
    + rewrite (handleSend_begin_sends _ Hs) in Hgap' |- *.
      cbn [snd world ui messages clock ticks] in Hgap' |- *.
      destruct (IH Hgap') as (zs & Hids & Hnd & Hbound).
      exists (zs ++ [clock (world wd) (ticks (world wd))]).
      split; [rewrite !fmap_app, Hids; reflexivity|]. split.
      * apply NoDup_app. split; [exact Hnd|]. split; [|apply NoDup_singleton].
        intros z Hz Hz'. apply list_elem_of_singleton in Hz'. subst z.
        destruct (Hbound _ Hz) as (i & Hi & Hle).
        pose proof (gapped_lt _ _ _ Hgap' Hi). lia.
      * intros z Hz. apply elem_of_app in Hz as [Hz | Hz].
        { destruct (Hbound _ Hz) as (i & Hi & Hle). exists i. split; [lia | exact Hle]. }
        apply list_elem_of_singleton in Hz. subst z.
        exists (ticks (world wd)). split; lia.
    + rewrite Hw in Hgap' |- *.
      destruct (handleSend_resume_effect (response_interceptor s) (world wd))
        as (m & i & Hlog & _ & _ & Hclk & Hi & Hid & _).
      rewrite Hclk in Hgap' |- *.
      destruct (IH Hgap') as (zs & Hids & Hnd & Hbound).
      assert (Hz : ∃ z, id m = number_toString z ∧
                        clock (world wd) i ≤ z ≤ clock (world wd) i + 1).
      { destruct Hid as [-> | ->]; eexists; (split; [reflexivity | lia]). }
      destruct Hz as (z & Hidz & Hz).
      exists (zs ++ [z]).
      split; [rewrite Hlog, !fmap_app, Hids; simpl; rewrite Hidz; reflexivity|].
      split.
      * apply NoDup_app. split; [exact Hnd|]. split; [|apply NoDup_singleton].
        intros z' Hz' Heq. apply list_elem_of_singleton in Heq. subst z'.
        destruct (Hbound _ Hz') as (j & Hj & Hle).
        assert (clock (world wd) j + 1 < clock (world wd) (ticks (world wd)))
          by (apply gapped_lt; assumption).
        assert (clock (world wd) (ticks (world wd)) ≤ clock (world wd) i)
          by (apply gapped_le; [assumption | lia]).
        lia.
      * intros z' Hz'. apply elem_of_app in Hz' as [Hz' | Hz'].
        { destruct (Hbound _ Hz') as (j & Hj & Hle). exists j. split; [lia | exact Hle]. }
        apply list_elem_of_singleton in Hz'. subst z'.
        exists i. split; lia.
Qed.

(** When consecutive readings of the clock lie more than a millisecond
    apart, the identifiers of the log are pairwise distinct in every
    reachable state, on the success and on the failure path alike. *)
Theorem chat_ids_distinct_when_clock_gapped (wd : Widget) :
  reachable wd →
  gapped (clock (world wd)) →
  NoDup (id <$> messages (ui (world wd))).
Proof.
  intros Hreach Hgap.
  destruct (chat_ids_from_clock wd Hreach Hgap) as (zs & -> & Hnd & _).
  apply NoDup_cons. split.
  - intros Hin. apply list_elem_of_fmap in Hin as (z & Heq & _).
    symmetry in Heq. exact (number_toString_not_welcome z Heq).
  - apply NoDup_fmap_2; [|exact Hnd].
    intros x y. apply number_toString_inj.
Qed.

Lemma chat_ids_distinct_when_clock_gapped_witness :
  ∃ wd,
    run [ Typing (str "hi"); Submit; Settle (Rejected TypeError);
          Typing (str "again"); Submit ]
        (mount (λ n, Z.of_nat (3 * n))) = Some wd ∧
    gapped (clock (world wd)) ∧
    NoDup (id <$> messages (ui (world wd))).
Proof.
  eexists. split; [vm_compute; reflexivity|].
  assert (Hgap : gapped (λ n, Z.of_nat (3 * n))).
  { intros n. lia. }
  split; [exact Hgap|].
  apply chat_ids_distinct_when_clock_gapped; [|exact Hgap].
  exists (λ n, Z.of_nat (3 * n)),
    [ Typing (str "hi"); Submit; Settle (Rejected TypeError);
      Typing (str "again"); Submit ].
  vm_compute. reflexivity.
Defined.

(** ** The submit button and the guard agree *)

(** In every reachable state the submit button is enabled exactly when a
    submit would append the user message and post a request; where it is
    disabled, a submit changes nothing. *)
Theorem submit_button_matches_guard (wd : Widget) :
  reachable wd →
  (ChatForm.submit_disabled (ui (world wd)) = false ↔
   ∃ call w', handleSend_begin (world wd) = (inr (Some call), w')) ∧
  (ChatForm.submit_disabled (ui (world wd)) = true ↔ step Submit wd = Some wd).
Proof.
  intros Hreach.
  destruct (reachable_pending_inv wd Hreach) as [Hempty _].
  unfold ChatForm.submit_disabled. fold (sendable (input (ui (world wd)))).
  destruct (sendable (input (ui (world wd)))) eqn:Hs.
  - assert (Hl : loading (ui (world wd)) = false).
    { destruct (loading (ui (world wd))); [|reflexivity].
      rewrite Hempty in Hs by reflexivity. discriminate. }
    rewrite Hl. cbn [negb orb]. split.
    + split; [|reflexivity]. intros _.
      rewrite (handleSend_begin_sends _ Hs). eexists _, _. reflexivity.
    + split; [discriminate|]. cbn [step].
      rewrite (handleSend_begin_sends _ Hs). intros [= Heq].
      apply (f_equal in_flight) in Heq. simpl in Heq. lia.
  - cbn [negb orb]. split.
    + split; [discriminate|]. intros (call & w' & Hrun).
      rewrite (handleSend_begin_blank _ Hs) in Hrun. discriminate.
    + split; [|reflexivity]. intros _. cbn [step].
      rewrite (handleSend_begin_blank _ Hs). destruct wd; reflexivity.
Qed.

Lemma submit_button_matches_guard_witness :
  ∃ wd,
    run [Typing (str "hi")] (mount (λ _, 0)) = Some wd ∧
    ChatForm.submit_disabled (ui (world wd)) = false ∧
    ∃ call w', handleSend_begin (world wd) = (inr (Some call), w').
Proof.
  eexists. split; [vm_compute; reflexivity|].
  split; [vm_compute; reflexivity|].
  refine (proj1 (proj1 (submit_button_matches_guard _ _)) _).
  - exists (λ _, 0), [Typing (str "hi")]. vm_compute. reflexivity.
  - vm_compute. reflexivity.
Defined.

(** * Further properties of the transport client *)

(** The interceptor on a stored, non-empty token. *)
Lemma request_interceptor_with_token
    (localStorage : gmap jsstring jsstring) (token : jsstring)
    (config : Config) :
  getItem localStorage (str "token") = Some token →
  token ≠ [] →
  request_interceptor (Some localStorage) config =
    inr {| method := method config;
           baseURL := baseURL config;
           url := url config;
           headers := <[str "Authorization" := str "Bearer " ++ token]>
                        (headers config);
           body := body config |}.
Proof.
  intros Htoken Hne. unfold request_interceptor. rewrite Htoken.
  cbn [to_boolean]. rewrite bool_decide_eq_false_2 by exact Hne.
  reflexivity.
Qed.

(** With a non-empty token in [localStorage], the request interceptor sets
    the [Authorization] header to "Bearer " followed by the token,
    replacing any value the caller supplied, and leaves every other
    header, the method, the URLs and the body as they were. *)
Theorem request_interceptor_attaches_bearer
    (localStorage : gmap jsstring jsstring) (token : jsstring)
    (config : Config) :
  getItem localStorage (str "token") = Some token →
  token ≠ [] →
  ∃ config',
    request_interceptor (Some localStorage) config = inr config' ∧
    headers config' !! str "Authorization" = Some (str "Bearer " ++ token) ∧
    (∀ k, k ≠ str "Authorization" → headers config' !! k = headers config !! k) ∧
    method config' = method config ∧ baseURL config' = baseURL config ∧
    url config' = url config ∧ body config' = body config.
Proof.
  intros Htoken Hne.
  rewrite (request_interceptor_with_token _ _ _ Htoken Hne).
  eexists. split; [reflexivity|]. cbn [headers method baseURL url body].
  split; [apply lookup_insert_eq|].
  split; [|repeat split].
  intros k Hk. apply lookup_insert_ne. congruence.
Qed.

Lemma request_interceptor_attaches_bearer_witness :
  let localStorage : gmap jsstring jsstring :=
    {[ str "token" := str "abc" ]} in
  let config := post_config (str "/agent/execute") JNull in
  getItem localStorage (str "token") = Some (str "abc") ∧
  ∃ config',
    request_interceptor (Some localStorage) config = inr config' ∧
    headers config' !! str "Authorization" = Some (str "Bearer abc") ∧
    headers config' !! str "Content-Type" = Some (str "application/json").
Proof.
  intros localStorage config.
  assert (Hget : getItem localStorage (str "token") = Some (str "abc"))
    by (vm_compute; reflexivity).
  split; [exact Hget|].
  destruct (request_interceptor_attaches_bearer localStorage (str "abc") config Hget)
    as (config' & Hrun & Hauth & Hframe & _); [discriminate|].
  exists config'. split; [exact Hrun|]. split; [exact Hauth|].
  rewrite Hframe by discriminate. vm_compute. reflexivity.
Defined.

(** A request made with [api.post] carries an [Authorization] header
    exactly when there is a [window] whose [localStorage] holds a
    non-empty token, and the header is then "Bearer " followed by that
    token; a token stored as the empty string counts as none.  The URL,
    the body and the content type are those of the call. *)
Theorem post_authorization_header (window : Window) (u : jsstring)
    (b : JsValue) :
  ∃ sent,
    post_request window u b = inr sent ∧
    url sent = u ∧ body sent = b ∧
    headers sent !! str "Content-Type" = Some (str "application/json") ∧
    headers sent !! str "Authorization" =
      match stored_credential window with
      | Some (c :: token) => Some (str "Bearer " ++ c :: token)
      | Some [] | None => None
      end.
Proof.
  unfold post_request, request_interceptor, stored_credential.
  destruct window as [localStorage|]; cbn [mbind option_bind];
    [|eexists; repeat split].
  destruct (getItem localStorage (str "token")) as [[|c token]|];
    cbn [to_boolean negb]; eexists; repeat split.
Qed.

(** Passing a configuration through the request interceptor a second
    time changes nothing any more. *)
Theorem request_interceptor_idempotent (window : Window)
    (config config' : Config) :
  request_interceptor window config = inr config' →
  request_interceptor window config' = inr config'.
Proof.
  unfold request_interceptor.
  destruct window as [localStorage|]; [|intros [= <-]; reflexivity].
  destruct (getItem localStorage (str "token")) as [token|];
    [|intros [= <-]; reflexivity].
  destruct (to_boolean (JString token)); [|intros [= <-]; reflexivity].
  intros [= <-]. cbn [headers method baseURL url body].
  rewrite insert_insert_eq. reflexivity.
Qed.

Lemma request_interceptor_idempotent_witness :
  let window : Window := Some {[ str "token" := str "abc" ]} in
  ∃ config',
    request_interceptor window (post_config (str "/auth/me") JUndefined)
      = inr config' ∧
    request_interceptor window config' = inr config'.
Proof.
  intros window.
  destruct (request_interceptor_frame window
              (post_config (str "/auth/me") JUndefined)) as (config' & Hrun & _).
  exists config'. split; [exact Hrun|].
  exact (request_interceptor_idempotent window _ config' Hrun).
Defined.

(** What the agent facade hands to its caller: each of its three calls
    returns [response.data] of the response the request resolved with,
    and fails with the very error the request was rejected with, a 401
    included; neither is replaced by anything else. *)
Theorem agent_facade_propagates (window : Window) (backend : Config → Settled)
    (settled : Settled) (query slotId patientId : jsstring)
    (context role : JsValue) :
  (∀ config, backend config = settled) →
  let result := match settled with
                | Resolved response => inr (Api.data response)
                | Rejected error => inl error
                end in
  AgentAPI.sendMessage window backend query context role = result ∧
  AgentAPI.bookSlot window backend slotId patientId = result ∧
  AgentAPI.askDoctorAssistant window backend query = result.
Proof.
  intros Hbackend result.
  assert (Hpost : ∀ b, post window backend (str "/agent/execute") b =
                       match settled with
                       | Resolved response => inr response
                       | Rejected error => inl error
                       end).
  { intros b. destruct (post_dispatch window backend (str "/agent/execute") b)
      as (config & _ & _ & _ & _ & ->). rewrite Hbackend. reflexivity. }
  unfold AgentAPI.sendMessage, AgentAPI.bookSlot, AgentAPI.askDoctorAssistant.
  rewrite !Hpost. subst result. destruct settled; repeat split; reflexivity.
Qed.

Lemma agent_facade_propagates_witness :
  let unauthorized := AxiosError (Some 401) JNull in
  let backend : Config → Settled := λ _, Rejected unauthorized in
  (∀ config, backend config = Rejected unauthorized) ∧
  AgentAPI.bookSlot None backend (str "S1") (str "P1") = inl unauthorized.
Proof.
  intros unauthorized backend. split; [reflexivity|].
  exact (proj1 (proj2 (agent_facade_propagates None backend
                         (Rejected unauthorized) [] (str "S1") (str "P1")
                         JUndefined JUndefined (λ _, eq_refl)))).
Defined.

(** * The layouts *)

Module LayoutFacts.
Import Js Api Layout.



(** After the admin's sign-out nothing is left in [localStorage]: the
    next request of the client goes out without a credential, whatever
    it is, and the admin layout's check sends the visitor to the login. *)
Theorem admin_logout_drops_credential (b : Browser) (config : Config) :
  storage (AdminLayout.handleLogout b) = ∅ ∧
  pushed (AdminLayout.handleLogout b) = pushed b ++ [str "/auth/role-selection"] ∧
  stored_credential (Some (storage (AdminLayout.handleLogout b))) = None ∧
  request_interceptor (Some (storage (AdminLayout.handleLogout b))) config
    = inr config ∧
  AdminLayout.authCheck (AdminLayout.handleLogout b)
    = router_push (str "/auth/admin/login") (AdminLayout.handleLogout b).
Proof.
  repeat split.
Qed.

(** The doctor's sign-out changes the route and nothing else: a token
    that was stored is still there, and the client keeps sending it. *)
Theorem doctor_logout_keeps_credential (b : Browser) (token : jsstring)
    (config : Config) :
  getItem (storage b) (str "token") = Some token →
  token ≠ [] →
  storage (DoctorLayout.handleLogout b) = storage b ∧
  pushed (DoctorLayout.handleLogout b) = pushed b ++ [str "/auth/role-selection"] ∧
  ∃ sent,
    request_interceptor (Some (storage (DoctorLayout.handleLogout b))) config
      = inr sent ∧
    headers sent !! str "Authorization" = Some (str "Bearer " ++ token).
Proof.
  intros Htoken Hne. split; [reflexivity|]. split; [reflexivity|].
  cbn [DoctorLayout.handleLogout router_push storage].
  rewrite (request_interceptor_with_token _ _ _ Htoken Hne).
  eexists. split; [reflexivity|]. apply lookup_insert_eq.
Qed.

Lemma doctor_logout_keeps_credential_witness :
  let b := {| storage := {[ str "token" := str "abc" ]}; pushed := [] |} in
  getItem (storage b) (str "token") = Some (str "abc") ∧
  ∃ sent,
    request_interceptor (Some (storage (DoctorLayout.handleLogout b)))
      (post_config (str "/agent/execute") JNull) = inr sent ∧
    headers sent !! str "Authorization" = Some (str "Bearer abc").
Proof.
  intros b.
  assert (Hget : getItem (storage b) (str "token") = Some (str "abc"))
    by (vm_compute; reflexivity).
  split; [exact Hget|].
  refine (proj2 (proj2 (doctor_logout_keeps_credential b (str "abc")
                          (post_config (str "/agent/execute") JNull) Hget _))).
  discriminate.
Defined.

(** For any path, each sidebar highlights at most one of its entries. *)
Theorem sidebar_highlights_at_most_one (pathname : jsstring) :
  (length (filter (λ it, isActive pathname it = true) AdminLayout.NAV_ITEMS) ≤ 1)%nat ∧
  (length (filter (λ it, isActive pathname it = true) DoctorLayout.navItems) ≤ 1)%nat.
Proof.
  assert (Hgen : ∀ items,
            NoDup (href <$> items) →
            (length (filter (λ it, isActive pathname it = true) items) ≤ 1)%nat).
  { induction items as [|it items IH]; intros Hnd; [simpl; lia|].
    rewrite fmap_cons in Hnd. apply NoDup_cons in Hnd as [Hnotin Hnd].
    rewrite filter_cons. destruct (decide (isActive pathname it = true)) as [Hact|];
      [|apply IH; exact Hnd].
    assert (Hnone : filter (λ it0, isActive pathname it0 = true) items = []).
    { destruct (filter (λ it0, isActive pathname it0 = true) items)
        as [|it' rest] eqn:Hf; [reflexivity|].
      assert (Hin : it' ∈ filter (λ it0, isActive pathname it0 = true) items)
        by (rewrite Hf; left).
      apply list_elem_of_filter in Hin as [Hact' Hin].
      unfold isActive in Hact, Hact'.
      apply bool_decide_eq_true in Hact, Hact'.
      destruct Hnotin. rewrite <- Hact, Hact'.
      apply list_elem_of_fmap. exists it'. auto. }
    rewrite Hnone. simpl. lia. }
  split; apply Hgen; apply (bool_decide_unpack _); vm_compute; exact I.
Qed.

End LayoutFacts.

(** * The doctor verification page *)

Module DoctorsPageFacts.
Import Js Api ApiGet Eff AdminDoctorsPage.

Lemma post_settled (window : Window) (backend : Config → Settled)
    (settled : Settled) (u : jsstring) (b : JsValue) :
  (∀ config, backend config = settled) →
  post window backend u b =
    match settled with
    | Resolved response => inr response
    | Rejected error => inl error
    end.
Proof.
  intros Hbackend.
  destruct (post_dispatch window backend u b) as (config & _ & _ & _ & _ & ->).
  rewrite Hbackend. reflexivity.
Qed.

Lemma get_settled (window : Window) (backend : Config → Settled)
    (settled : Settled) (u : jsstring) :
  (∀ config, backend config = settled) →
  get window backend u =
    match settled with
    | Resolved response => inr response
    | Rejected error => inl error
    end.
Proof.
  intros Hbackend. unfold get.
  destruct (request_interceptor_frame window (get_config u)) as (config & -> & _).
  rewrite response_interceptor_id, Hbackend. reflexivity.
Qed.

Lemma get_member_id (d : JsValue) :
  d ≠ JNull → d ≠ JUndefined → get_member d (str "id") = inr (id_of d).
Proof.
  intros Hnull Hundef. unfold id_of.
  destruct d; try reflexivity; contradiction.
Qed.

(** On an array without [null] entries the callback never throws, and
    [filter] keeps the entries whose [id] is not the given string. *)
Lemma filter_elements_spec (id : jsstring) (xs : list JsValue) :
  Forall (λ d, d ≠ JNull ∧ d ≠ JUndefined) xs →
  filter_elements id xs =
    inr (filter (λ d, strict_eq_string (id_of d) id = false) xs).
Proof.
  induction 1 as [|d xs [Hnull Hundef] _ IH]; [reflexivity|].
  cbn [filter_elements]. rewrite (get_member_id d Hnull Hundef), IH.
  destruct (strict_eq_string (id_of d) id) eqn:Heq; cbn [negb].
  - rewrite filter_cons_False by (rewrite Heq; discriminate). reflexivity.
  - rewrite filter_cons_True by exact Heq. reflexivity.
Qed.

Lemma handleAction_resolved (window : Window) (backend : Config → Settled)
    (id : jsstring) (action : Verdict) (w : World) (xs : list JsValue)
    (res : Response) :
  doctors (ui w) = JArray xs →
  Forall (λ d, d ≠ JNull ∧ d ≠ JUndefined) xs →
  (∀ config, backend config = Resolved res) →
  handleAction window backend id action w =
    (inr (),
     {| ui := {| doctors := JArray (filter (λ d, strict_eq_string (id_of d) id = false) xs);
                 loading := loading (ui w) |};
        console := console w; alerts := alerts w;
        render_error := render_error w |}).
Proof.
  intros Hdoctors Hxs Hbackend.
  unfold handleAction, try_catch, mbind, ST_bind, lift, setDoctors_with, modify.
  rewrite (post_settled _ _ _ _ _ Hbackend), Hdoctors.
  cbn [remove_doctor]. rewrite (filter_elements_spec _ _ Hxs). reflexivity.
Qed.

(** When the verification request succeeds on a list without [null]
    entries, the page keeps, each in its place and as often as it
    occurred, the entries whose [id] is not the given string, those with
    an [id] that is not a string included, and drops all the others;
    nothing else on the page changes. *)
Theorem handleAction_removes_the_doctor (window : Window)
    (backend : Config → Settled) (id : jsstring) (action : Verdict)
    (w : World) (xs : list JsValue) (res : Response) :
  doctors (ui w) = JArray xs →
  Forall (λ d, d ≠ JNull ∧ d ≠ JUndefined) xs →
  (∀ config, backend config = Resolved res) →
  handleAction window backend id action w =
    (inr (),
     {| ui := {| doctors :=
                   JArray (filter (λ d, strict_eq_string (id_of d) id = false) xs);
                 loading := loading (ui w) |};
        console := console w; alerts := alerts w;
        render_error := render_error w |}) ∧
  (∀ d, strict_eq_string (id_of d) id = false ↔ id_of d ≠ JString id) ∧
  (∀ d, (∀ s, id_of d ≠ JString s) → strict_eq_string (id_of d) id = false).
Proof.
  intros Hdoctors Hxs Hbackend.
  assert (Hmeaning : ∀ d, strict_eq_string (id_of d) id = false ↔
                          id_of d ≠ JString id).
  { intros d. split.
    - intros Hne Heq. apply strict_eq_string_true in Heq. congruence.
    - intros Hne. destruct (strict_eq_string (id_of d) id) eqn:Heq; [|reflexivity].
      apply strict_eq_string_true in Heq. contradiction. }
  split; [exact (handleAction_resolved _ _ id action _ _ _ Hdoctors Hxs Hbackend)|].
  split; [exact Hmeaning|].
  intros d Hd. apply Hmeaning, Hd.
Qed.

Lemma handleAction_removes_the_doctor_witness :
  let doctor (i : JsValue) := JObject [ (str "id", i) ] in
  let xs := [ doctor (JString (str "7")); doctor (JNumber (S754_zero false));
              doctor (JString (str "8")); doctor (JString (str "8")) ] in
  let w := {| ui := {| doctors := JArray xs; loading := false |};
              console := []; alerts := []; render_error := None |} in
  let backend : Config → Settled :=
    λ _, Resolved {| status := 200; Api.data := JNull |} in
  doctors (ui (handleAction None backend (str "7") approve w).2)
  = JArray [ doctor (JNumber (S754_zero false));
             doctor (JString (str "8")); doctor (JString (str "8")) ].
Proof.
  intros doctor xs w backend.
  rewrite (proj1 (handleAction_removes_the_doctor None backend (str "7")
                    approve w xs {| status := 200; Api.data := JNull |} eq_refl
                    ltac:(repeat (apply Forall_cons; split; [split; discriminate|]);
                          apply Forall_nil_2)
                    (λ _, eq_refl))).
  reflexivity.
Defined.

(** When the verification request fails, the list stays as it is, one
    alert is raised, and the handler itself does not fail. *)
Theorem handleAction_failure_alerts (window : Window)
    (backend : Config → Settled) (id : jsstring) (action : Verdict)
    (w : World) (error : Thrown) :
  (∀ config, backend config = Rejected error) →
  handleAction window backend id action w =
    (inr (),
     {| ui := ui w; console := console w;
        alerts := alerts w ++ [str "Action failed. Please try again."];
        render_error := render_error w |}).
Proof.
  intros Hbackend.
  unfold handleAction, try_catch, mbind, ST_bind, lift.
  rewrite (post_settled _ _ _ _ _ Hbackend). reflexivity.
Qed.

Lemma handleAction_failure_alerts_witness :
  let backend : Config → Settled :=
    λ _, Rejected (AxiosError (Some 500) JNull) in
  (handleAction None backend (str "7") reject initial_world).2
  = {| ui := ui initial_world; console := [];
       alerts := [str "Action failed. Please try again."];
       render_error := None |}.
Proof.
  intros backend.
  rewrite (handleAction_failure_alerts None backend (str "7") reject
             initial_world (AxiosError (Some 500) JNull) (λ _, eq_refl)).
  reflexivity.
Defined.

(** Repeating a successful action on the same doctor changes nothing
    more, and two successful actions on different doctors give the same
    list in either order. *)
Theorem handleAction_repeats_and_commutes (window : Window)
    (backend : Config → Settled) (id1 id2 : jsstring) (a1 a2 : Verdict)
    (w : World) (xs : list JsValue) (res : Response) :
  doctors (ui w) = JArray xs →
  Forall (λ d, d ≠ JNull ∧ d ≠ JUndefined) xs →
  (∀ config, backend config = Resolved res) →
  let run1 := (handleAction window backend id1 a1 w).2 in
  (handleAction window backend id1 a2 run1).2 = run1 ∧
  (handleAction window backend id2 a2 run1).2 =
  (handleAction window backend id1 a1 (handleAction window backend id2 a2 w).2).2.
Proof.
  intros Hdoctors Hxs Hbackend run1. subst run1.
  assert (Hsub : ∀ id, Forall (λ d, d ≠ JNull ∧ d ≠ JUndefined)
                         (filter (λ d, strict_eq_string (id_of d) id = false) xs)).
  { intros id. rewrite Forall_forall in Hxs |- *. intros d Hd.
    apply list_elem_of_filter in Hd as [_ Hd]. auto. }
  rewrite (handleAction_resolved _ _ id1 a1 _ _ _ Hdoctors Hxs Hbackend).
  rewrite (handleAction_resolved _ _ id2 a2 _ _ _ Hdoctors Hxs Hbackend).
  cbn [snd].
  do 3 (erewrite handleAction_resolved;
          [| reflexivity | apply Hsub | exact Hbackend]).
  cbn [snd ui doctors loading console alerts render_error]. split.
  - do 3 f_equal. rewrite list_filter_filter.
    apply list_filter_iff. tauto.
  - do 3 f_equal. rewrite !list_filter_filter.
    apply list_filter_iff. tauto.
Qed.

Lemma handleAction_repeats_and_commutes_witness :
  let doctor (i : jsstring) := JObject [ (str "id", JString i) ] in
  let xs := [ doctor (str "7"); doctor (str "8"); doctor (str "9") ] in
  let w := {| ui := {| doctors := JArray xs; loading := false |};
              console := []; alerts := []; render_error := None |} in
  let backend : Config → Settled :=
    λ _, Resolved {| status := 200; Api.data := JNull |} in
  let run1 := (handleAction None backend (str "7") approve w).2 in
  (handleAction None backend (str "7") reject run1).2 = run1 ∧
  (handleAction None backend (str "9") reject run1).2 =
  (handleAction None backend (str "7") approve
     (handleAction None backend (str "9") reject w).2).2.
Proof.
  intros doctor xs w backend.
  apply (handleAction_repeats_and_commutes None backend (str "7") (str "9")
           approve reject w xs {| status := 200; Api.data := JNull |} eq_refl).
  - repeat (apply Forall_cons; split; [split; discriminate|]). apply Forall_nil_2.
  - reflexivity.
Defined.

(** Loading the queue always ends with [loading] false and never fails:
    a resolved request puts its payload in [doctors] as it is; a rejected
    one leaves [doctors] untouched and logs the error once. *)
Theorem fetchPendingDoctors_settles (window : Window)
    (backend : Config → Settled) (settled : Settled) (w : World) :
  (∀ config, backend config = settled) →
  fetchPendingDoctors window backend w =
    (inr (),
     match settled with
     | Resolved res =>
         {| ui := {| doctors := Api.data res; loading := false |};
            console := console w; alerts := alerts w;
            render_error := render_error w |}
     | Rejected error =>
         {| ui := {| doctors := doctors (ui w); loading := false |};
            console := console w ++ [(str "Failed to load doctors", error)];
            alerts := alerts w; render_error := render_error w |}
     end).
Proof.
  intros Hbackend.
  unfold fetchPendingDoctors, try_catch_finally, try_catch, mbind, ST_bind, lift.
  rewrite (get_settled _ _ _ _ Hbackend).
  destruct settled; reflexivity.
Qed.

Lemma fetchPendingDoctors_settles_witness :
  let backend : Config → Settled := λ _, Rejected (AxiosError None JUndefined) in
  (∀ config, backend config = Rejected (AxiosError None JUndefined)) ∧
  fetchPendingDoctors None backend initial_world =
    (inr (),
     {| ui := {| doctors := JArray []; loading := false |};
        console := [(str "Failed to load doctors", AxiosError None JUndefined)];
        alerts := []; render_error := None |}).
Proof.
  intros backend. split; [reflexivity|].
  exact (fetchPendingDoctors_settles None backend
           (Rejected (AxiosError None JUndefined)) initial_world (λ _, eq_refl)).
Defined.

End DoctorsPageFacts.

(** * The admin dashboard *)

Module DashboardFacts.
Import Js Api ApiGet Eff AdminDashboard.

Lemma get_member_nullish (v : JsValue) (k : jsstring) :
  get_member v k = if nullish v then inl TypeError else inr (member v k).
Proof. unfold member. destruct v; reflexivity. Qed.

Lemma optional_chain_value (v : JsValue) (a b : jsstring) :
  nullish v = false →
  optional_chain v a b =
    if nullish (member v a) then inl TypeError
    else inr (member (member v a) b).
Proof.
  intros Hv. unfold optional_chain.
  rewrite (get_member_nullish v a), Hv.
  destruct v; try discriminate Hv;
    cbn [mbind Completion_bind]; apply get_member_nullish.
Qed.

(** The body of the component in closed form. *)
Lemma render_cases (s : State) :
  render s =
    if loading s then inr Spinner
    else if nullish (stats s)
    then inr (Cards JUndefined JUndefined JUndefined JUndefined)
    else if nullish (member (stats s) (str "financials"))
            || nullish (member (member (stats s) (str "financials")) (str "revenue"))
            || toLocaleString_fails
                 (member (member (stats s) (str "financials")) (str "revenue"))
            || nullish (member (stats s) (str "total_users"))
            || nullish (member (stats s) (str "action_items"))
            || to_primitive_fails
                 (member (member (stats s) (str "action_items")) (str "pending_doctors"))
            || to_primitive_fails
                 (member (member (stats s) (str "action_items")) (str "pending_hospitals"))
    then inl TypeError
    else inr (Cards
                (member (member (stats s) (str "total_users")) (str "doctors"))
                (member (member (stats s) (str "total_users")) (str "hospitals"))
                (member (member (stats s) (str "total_users")) (str "patients"))
                (member (member (stats s) (str "financials")) (str "appointments"))).
Proof.
  unfold render. destruct (loading s); [reflexivity|].
  destruct (nullish (stats s)) eqn:Hst.
  { destruct (stats s); try discriminate Hst; reflexivity. }
  rewrite !(optional_chain_value _ _ _ Hst).
  assert (Hrev : optional_chain_toLocaleString (stats s) (str "financials") (str "revenue")
                 = if nullish (member (stats s) (str "financials"))
                      || nullish (member (member (stats s) (str "financials")) (str "revenue"))
                      || toLocaleString_fails
                           (member (member (stats s) (str "financials")) (str "revenue"))
                   then inl TypeError else inr ()).
  { unfold optional_chain_toLocaleString.
    rewrite (get_member_nullish (stats s)), Hst.
    destruct (stats s); try discriminate Hst; cbn [mbind Completion_bind];
      rewrite get_member_nullish;
      (destruct (nullish (member _ (str "financials"))); [reflexivity|]);
      cbn [mbind Completion_bind orb];
      (destruct (member (member _ (str "financials")) (str "revenue")); reflexivity). }
  rewrite Hrev. unfold to_primitive.
  destruct (nullish (member (stats s) (str "financials"))); [reflexivity|].
  destruct (nullish (member (member (stats s) (str "financials")) (str "revenue")));
    [reflexivity|].
  destruct (toLocaleString_fails
              (member (member (stats s) (str "financials")) (str "revenue")));
    [reflexivity|].
  cbn [orb mbind Completion_bind].
  destruct (nullish (member (stats s) (str "total_users"))); [reflexivity|].
  cbn [orb mbind Completion_bind].
  destruct (nullish (member (stats s) (str "action_items"))); [reflexivity|].
  cbn [orb mbind Completion_bind].
  destruct (to_primitive_fails
              (member (member (stats s) (str "action_items")) (str "pending_doctors")));
    [reflexivity|].
  cbn [orb mbind Completion_bind].
  destruct (to_primitive_fails
              (member (member (stats s) (str "action_items")) (str "pending_hospitals")));
    reflexivity.
Qed.

(** The dashboard's body throws, always a [TypeError], exactly when the
    page has stopped loading with a payload that is neither [null] nor
    [undefined] and in which [financials], [financials.revenue],
    [total_users] or [action_items] is missing, or the call of
    [revenue.toLocaleString()] fails, or one of the two pending counts
    cannot be converted to a primitive. *)
Theorem dashboard_render_throws_iff (s : State) :
  (∀ e, render s = inl e → e = TypeError) ∧
  (render s = inl TypeError ↔
   loading s = false ∧ nullish (stats s) = false ∧
   (nullish (member (stats s) (str "financials")) = true ∨
    nullish (member (member (stats s) (str "financials")) (str "revenue")) = true ∨
    toLocaleString_fails
      (member (member (stats s) (str "financials")) (str "revenue")) = true ∨
    nullish (member (stats s) (str "total_users")) = true ∨
    nullish (member (stats s) (str "action_items")) = true ∨
    to_primitive_fails
      (member (member (stats s) (str "action_items")) (str "pending_doctors")) = true ∨
    to_primitive_fails
      (member (member (stats s) (str "action_items")) (str "pending_hospitals")) = true)).
Proof.
  rewrite render_cases.
  destruct (loading s); [split; [discriminate|]; split; [discriminate | intros [[=] _]]|].
  destruct (nullish (stats s));
    [split; [discriminate|]; split; [discriminate | intros (_ & [=] & _)]|].
  destruct (nullish (member (stats s) (str "financials")));
    [split; [intros e [= <-]; reflexivity | split; auto]|].
  destruct (nullish (member (member (stats s) (str "financials")) (str "revenue")));
    [split; [intros e [= <-]; reflexivity | split; auto]|].
  destruct (toLocaleString_fails
              (member (member (stats s) (str "financials")) (str "revenue")));
    [split; [intros e [= <-]; reflexivity | split; auto 6]|].
  destruct (nullish (member (stats s) (str "total_users")));
    [split; [intros e [= <-]; reflexivity | split; auto 7]|].
  destruct (nullish (member (stats s) (str "action_items")));
    [split; [intros e [= <-]; reflexivity | split; auto 8]|].
  destruct (to_primitive_fails
              (member (member (stats s) (str "action_items")) (str "pending_doctors")));
    [split; [intros e [= <-]; reflexivity | split; auto 9]|].
  destruct (to_primitive_fails
              (member (member (stats s) (str "action_items")) (str "pending_hospitals")));
    [split; [intros e [= <-]; reflexivity | split; auto 10]|].
  cbn [orb]. split; [discriminate|]. split; [discriminate|].
  intros (_ & _ & [[=] | [[=] | [[=] | [[=] | [[=] | [[=] | [=]]]]]]]).
Qed.

(** A payload made of numbers, as the backend sends it, never breaks
    the dashboard. *)
Example render_numbers :
  let n := JNumber (S754_finite false 5 0) in
  render {| stats := JObject
              [ (str "financials",
                 JObject [ (str "revenue", n); (str "appointments", n) ]);
                (str "total_users",
                 JObject [ (str "doctors", n); (str "hospitals", n);
                           (str "patients", n) ]);
                (str "action_items",
                 JObject [ (str "pending_doctors", n);
                           (str "pending_hospitals", n) ]) ];
            loading := false |}
  = inr (Cards n n n n).
Proof. reflexivity. Qed.

(** A revenue that carries its own [toLocaleString], or a pending count
    that carries its own [toString], does. *)
Example render_own_method :
  let n := JNumber (S754_finite false 5 0) in
  let payload revenue pending :=
    JObject [ (str "financials", JObject [ (str "revenue", revenue) ]);
              (str "total_users", JObject []);
              (str "action_items",
               JObject [ (str "pending_doctors", pending);
                         (str "pending_hospitals", n) ]) ] in
  render {| stats := payload (JObject [ (str "toLocaleString", n) ]) n;
            loading := false |} = inl TypeError ∧
  render {| stats := payload n (JArray [ JNull; JObject [ (str "toString", JNull) ] ]);
            loading := false |} = inl TypeError ∧
  render {| stats := payload n (JObject [ (str "valueOf", n) ]);
            loading := false |}
    = inr (Cards JUndefined JUndefined JUndefined JUndefined).
Proof. repeat split. Qed.

(** When the statistics request fails, the error is logged, [stats]
    stays [null], [loading] is cleared, and the dashboard's body then
    evaluates without throwing: every read short-circuits. *)
Theorem dashboard_survives_failed_fetch (window : Window)
    (backend : Config → Settled) (error : Thrown) (w : World) :
  (∀ config, backend config = Rejected error) →
  stats (ui w) = JNull →
  ∃ w',
    fetchStats window backend w = (inr (), w') ∧
    stats (ui w') = JNull ∧ loading (ui w') = false ∧
    console w' = console w ++ [error] ∧
    render (ui w') = inr (Cards JUndefined JUndefined JUndefined JUndefined).
Proof.
  intros Hbackend Hstats.
  unfold fetchStats, try_catch_finally, try_catch, mbind, ST_bind, lift, modify.
  rewrite (DoctorsPageFacts.get_settled _ _ _ _ Hbackend).
  eexists. split; [reflexivity|]. cbn [ui stats loading console].
  rewrite Hstats. repeat split.
Qed.

Lemma dashboard_survives_failed_fetch_witness :
  let backend : Config → Settled := λ _, Rejected (AxiosError (Some 401) JNull) in
  ∃ w',
    fetchStats None backend initial_world = (inr (), w') ∧
    render (ui w') = inr (Cards JUndefined JUndefined JUndefined JUndefined).
Proof.
  intros backend.
  destruct (dashboard_survives_failed_fetch None backend
              (AxiosError (Some 401) JNull) initial_world
              (λ _, eq_refl) eq_refl) as (w' & Hrun & _ & _ & _ & Hrender).
  exists w'. split; assumption.
Defined.

(** When the statistics request resolves, its payload becomes [stats] as
    it is and [loading] is cleared; nothing is logged. *)
Lemma fetchStats_resolved (window : Window) (backend : Config → Settled)
    (res : Response) (w : World) :
  (∀ config, backend config = Resolved res) →
  fetchStats window backend w =
    (inr (), {| ui := {| stats := Api.data res; loading := false |};
                console := console w |}).
Proof.
  intros Hbackend.
  unfold fetchStats, try_catch_finally, try_catch, mbind, ST_bind, lift, modify.
  rewrite (DoctorsPageFacts.get_settled _ _ _ _ Hbackend). reflexivity.
Qed.

(** A resolved request whose payload is an object without [financials],
    an error report for instance, is stored as it is, and the dashboard's
    body then throws. *)
Theorem dashboard_throws_on_partial_payload (window : Window)
    (backend : Config → Settled) (res : Response) (w : World) :
  (∀ config, backend config = Resolved res) →
  nullish (Api.data res) = false →
  nullish (member (Api.data res) (str "financials")) = true →
  ∃ w',
    fetchStats window backend w = (inr (), w') ∧
    loading (ui w') = false ∧ stats (ui w') = Api.data res ∧
    render (ui w') = inl TypeError.
Proof.
  intros Hbackend Hpayload Hfin.
  rewrite (fetchStats_resolved _ _ _ _ Hbackend).
  eexists. split; [reflexivity|]. split; [reflexivity|]. split; [reflexivity|].
  rewrite render_cases. cbn [ui stats loading]. rewrite Hpayload, Hfin.
  reflexivity.
Qed.

Lemma dashboard_throws_on_partial_payload_witness :
  let res := {| status := 200;
                Api.data := JObject [ (str "detail", JString (str "Not an admin")) ] |} in
  let backend : Config → Settled := λ _, Resolved res in
  ∃ w',
    fetchStats None backend initial_world = (inr (), w') ∧
    render (ui w') = inl TypeError.
Proof.
  intros res backend.
  destruct (dashboard_throws_on_partial_payload None backend res initial_world
              (λ _, eq_refl) eq_refl eq_refl) as (w' & Hrun & _ & _ & Hrender).
  exists w'. split; assumption.
Defined.

End DashboardFacts.

(** * The hospital picker *)

Module HospitalFacts.
Import Js HospitalSelect.

(** [includes] finds exactly the contiguous occurrences. *)
Lemma includes_spec (h s : jsstring) :
  includes h s = true ↔ ∃ pre post, h = pre ++ s ++ post.
Proof.
  induction h as [|c h IH]; cbn [includes].
  - rewrite orb_false_r, bool_decide_eq_true. split.
    + intros [post ->]. exists [], post. reflexivity.
    + intros (pre & post & Heq). destruct pre; [|discriminate].
      exists post. exact Heq.
  - rewrite orb_true_iff, bool_decide_eq_true, IH. split.
    + intros [[post ->] | (pre & post & ->)].
      * exists [], post. reflexivity.
      * exists (c :: pre), post. reflexivity.
    + intros (pre & post & Heq). destruct pre as [|c' pre].
      * left. exists post. exact Heq.
      * right. injection Heq as -> ->. exists pre, post. reflexivity.
Qed.

Lemma hospitals_ascii : Forall is_ascii HOSPITALS.
Proof.
  unfold is_ascii.
  apply (bool_decide_unpack _). vm_compute. exact I.
Qed.

Section Filter.
Variable toLowerCase : jsstring → jsstring.
Hypothesis toLowerCase_ascii :
  ∀ s, is_ascii s → toLowerCase s = lower_ascii <$> s.

(** For a search text of ASCII characters, the list shows exactly the
    hospitals whose name contains the text when letter case is ignored,
    in the order of the directory. *)
Theorem filtered_by_substring_ignoring_case (search h : jsstring) :
  is_ascii search →
  filtered toLowerCase search `sublist_of` HOSPITALS ∧
  (h ∈ filtered toLowerCase search ↔
   h ∈ HOSPITALS ∧
   ∃ pre post, lower_ascii <$> h = pre ++ (lower_ascii <$> search) ++ post).
Proof.
  intros Hsearch. unfold filtered. split; [apply sublist_filter|].
  rewrite list_elem_of_filter. split.
  - intros [Hinc Hin]. split; [exact Hin|].
    pose proof hospitals_ascii as Hall. rewrite Forall_forall in Hall.
    rewrite (toLowerCase_ascii h (Hall h Hin)),
            (toLowerCase_ascii search Hsearch) in Hinc.
    apply includes_spec. exact Hinc.
  - intros [Hin Hsub]. split; [|exact Hin].
    pose proof hospitals_ascii as Hall. rewrite Forall_forall in Hall.
    rewrite (toLowerCase_ascii h (Hall h Hin)),
            (toLowerCase_ascii search Hsearch).
    apply includes_spec. exact Hsub.
Qed.

(** With an empty search text every hospital is listed, and choosing a
    hospital empties the search text and closes the list, so that the
    list is complete again when it is reopened. *)
Theorem empty_search_lists_all (hospital : jsstring) (s : State) :
  filtered toLowerCase [] = HOSPITALS ∧
  isOpen (select hospital s).2 = false ∧
  filtered toLowerCase (search (select hospital s).2) = HOSPITALS ∧
  filtered toLowerCase (search (toggle (select hospital s).2)) = HOSPITALS.
Proof.
  assert (Hall : filtered toLowerCase [] = HOSPITALS).
  { unfold filtered. rewrite (toLowerCase_ascii []) by constructor.
    change (lower_ascii <$> []) with (@nil N).
    assert (Hany : ∀ l : list jsstring,
              filter (λ h, includes (toLowerCase h) [] = true) l = l).
    { induction l as [|h l IH]; [reflexivity|].
      rewrite filter_cons_True, IH; [reflexivity|].
      apply includes_spec. exists [], (toLowerCase h). reflexivity. }
    apply Hany. }
  repeat split; exact Hall.
Qed.

(** Two ASCII search texts that differ in letter case only give the same
    list. *)
Theorem search_ignores_letter_case (s1 s2 : jsstring) :
  is_ascii s1 → is_ascii s2 →
  lower_ascii <$> s1 = lower_ascii <$> s2 →
  filtered toLowerCase s1 = filtered toLowerCase s2.
Proof.
  intros H1 H2 Heq. unfold filtered.
  rewrite (toLowerCase_ascii s1 H1), (toLowerCase_ascii s2 H2), Heq.
  reflexivity.
Qed.

End Filter.

Lemma filtered_by_substring_ignoring_case_witness :
  let toLowerCase := fmap lower_ascii in
  str "Apex Dental Care" ∈ filtered toLowerCase (str "DENTAL") ∧
  str "City Smile Hospital" ∉ filtered toLowerCase (str "DENTAL").
Proof.
  intros toLowerCase.
  assert (Hascii : is_ascii (str "DENTAL")).
  { apply (bool_decide_unpack _). vm_compute. exact I. }
  split.
  - apply (proj2 (filtered_by_substring_ignoring_case toLowerCase
                    (λ s _, eq_refl) (str "DENTAL") (str "Apex Dental Care") Hascii)).
    split; [apply list_elem_of_In; vm_compute; tauto|].
    exists (str "apex "), (str " care"). vm_compute. reflexivity.
  - intros Hin.
    apply (proj2 (filtered_by_substring_ignoring_case toLowerCase
                    (λ s _, eq_refl) (str "DENTAL") (str "City Smile Hospital") Hascii))
      in Hin as [_ Hsub].
    apply includes_spec in Hsub. vm_compute in Hsub. discriminate.
Defined.

Lemma empty_search_lists_all_witness :
  filtered (fmap lower_ascii) [] = HOSPITALS.
Proof.
  exact (proj1 (empty_search_lists_all (fmap lower_ascii) (λ s _, eq_refl)
                  (str "Apex Dental Care") initial_state)).
Defined.

Lemma search_ignores_letter_case_witness :
  filtered (fmap lower_ascii) (str "Royal") = filtered (fmap lower_ascii) (str "rOYAL").
Proof.
  apply (search_ignores_letter_case (fmap lower_ascii) (λ s _, eq_refl)).
  - apply (bool_decide_unpack _). vm_compute. exact I.
  - apply (bool_decide_unpack _). vm_compute. exact I.
  - vm_compute. reflexivity.
Defined.

End HospitalFacts.
